(** * Landing page blocks: dispatcher, newsletter form and its submission client

    A shallow embedding of
      - [src/app/(frontend)/page.tsx]  ([renderBlock], [HomePage]),
      - the content block component    ([ContentBlock]),
      - the newsletter block component ([NewsletterBlock], [handleSubmit]).

    React elements are modelled as a first-order tree, the browser objects
    the handler touches (the native form, the console, [fetch], timers) as a
    world record, and the asynchronous handler as a program over an explicit
    effect signature that is interpreted against that world. *)

From Stdlib Require Import String Ascii List ZArith NArith Bool Lia Permutation
  Sorted.
Import ListNotations.
Local Open Scope string_scope.
Local Open Scope Z_scope.
Local Open Scope list_scope.

Set Implicit Arguments.
Set Warnings "-register-all".

(* ================================================================== *)
(** ** JavaScript values used by the components *)

(** The argument handed to [JSON.stringify], and the opaque rich-text
    documents stored by the CMS. *)
Inductive json : Type :=
| JNull
| JNum (n : Z)
| JStr (s : string)
| JArr (items : list json)
| JObj (members : list (string * json)).

Definition RichTextData := json.

(** A thrown value: [new Error(message)] or whatever [fetch] rejects with. *)
Record JsError : Type := mkError { err_name : string; message : string }.

Definition Error (msg : string) : JsError := mkError "Error" msg.

(* ================================================================== *)
(** ** Own-property order of plain objects

    [Object.fromEntries] creates the properties in iteration order, a later
    entry for an existing key overwriting the value in place.
    [Object.entries] lists the own properties with the array-index keys
    first, in ascending numeric order, followed by the other string keys in
    creation order. *)
Module JsObject.

(** Properties in creation order; keys are unique. *)
Definition t (V : Type) := list (string * V).

Definition digit_of (c : ascii) : option N :=
  let n := N_of_ascii c in
  if ((48 <=? n) && (n <=? 57))%N then Some (n - 48)%N else None.

Fixpoint digits_value (s : string) (acc : N) : option N :=
  match s with
  | EmptyString => Some acc
  | String c r =>
      match digit_of c with
      | Some d => digits_value r (10 * acc + d)%N
      | None => None
      end
  end.

(** A key is an array index when it is the canonical decimal form of an
    integer in [0, 2^32 - 2]. *)
Definition array_index (k : string) : option N :=
  match k with
  | EmptyString => None
  | String c r =>
      if Ascii.eqb c "0"%char then
        match r with EmptyString => Some 0%N | _ => None end
      else
        match digits_value k 0 with
        | Some n => if (n <=? 4294967294)%N then Some n else None
        | None => None
        end
  end.

Section Props.
Variable V : Type.

Fixpoint set (k : string) (v : V) (o : t V) : t V :=
  match o with
  | [] => [(k, v)]
  | (k', v') :: r =>
      if String.eqb k k' then (k, v) :: r else (k', v') :: set k v r
  end.

Fixpoint get (k : string) (o : t V) : option V :=
  match o with
  | [] => None
  | (k', v') :: r => if String.eqb k k' then Some v' else get k r
  end.

Definition keys (o : t V) : list string := map fst o.

(** One step of [Object.fromEntries]. *)
Definition assign (o : t V) (kv : string * V) : t V :=
  set (fst kv) (snd kv) o.

Definition fromEntries (entries : list (string * V)) : t V :=
  fold_left assign entries [].

(** Ascending insertion of an indexed property. *)
Fixpoint insert_index (i : N) (p : string * V)
         (l : list (N * (string * V))) : list (N * (string * V)) :=
  match l with
  | [] => [(i, p)]
  | (j, q) :: r =>
      if (i <=? j)%N then (i, p) :: (j, q) :: r
      else (j, q) :: insert_index i p r
  end.

Fixpoint index_props (o : t V) : list (N * (string * V)) :=
  match o with
  | [] => []
  | p :: r =>
      match array_index (fst p) with
      | Some i => insert_index i p (index_props r)
      | None => index_props r
      end
  end.

Definition is_named (p : string * V) : bool :=
  match array_index (fst p) with Some _ => false | None => true end.

Definition named_props (o : t V) : list (string * V) := filter is_named o.

Definition entries (o : t V) : list (string * V) :=
  map snd (index_props o) ++ named_props o.

End Props.

End JsObject.

(* ================================================================== *)
(** ** The CMS data model ([payload-types]) *)

(** A form-builder field block.  [name] is [None] when the block has no
    [name] key at all (the [message] block). *)
Record FormField : Type := mkField {
  field_blockType : string;
  name : option string;
  label : option string;
  required : option bool
}.

Inductive FormId : Type :=
| IdNum (n : Z)
| IdStr (s : string).

Record Form : Type := mkForm {
  form_id : FormId;
  title : string;
  fields : option (list FormField);
  submitButtonLabel : option string;
  confirmationMessage : option RichTextData
}.

(** The [form] relationship of a newsletter block: absent, [null], the bare
    id of an unresolved reference, or the populated document. *)
Inductive FormRef : Type :=
| RefUndefined
| RefNull
| RefId (i : FormId)
| RefObj (f : Form).

(** One entry of [Page.layout], with the properties the renderers read. *)
Record Block : Type := mkBlock {
  blockType : string;
  block_id : option string;
  heading : option string;
  content : option RichTextData;
  form : FormRef
}.

Record Page : Type := mkPage {
  layout : option (list Block)
}.

(** [typeof] and truthiness on a form reference. *)
Inductive JsType : Type := TUndefined | TObject | TNumber | TString.

Definition typeof (r : FormRef) : JsType :=
  match r with
  | RefUndefined => TUndefined
  | RefNull => TObject
  | RefId (IdNum _) => TNumber
  | RefId (IdStr _) => TString
  | RefObj _ => TObject
  end.

Definition JsType_eqb (a b : JsType) : bool :=
  match a, b with
  | TUndefined, TUndefined | TObject, TObject
  | TNumber, TNumber | TString, TString => true
  | _, _ => false
  end.

Definition truthy (r : FormRef) : bool :=
  match r with
  | RefUndefined | RefNull => false
  | RefId (IdNum n) => negb (n =? 0)
  | RefId (IdStr s) => negb (String.eqb s "")
  | RefObj _ => true
  end.

(** [block?.form?.title] *)
Definition form_title (r : FormRef) : option string :=
  match r with
  | RefObj f => Some (title f)
  | _ => None
  end.

Definition json_of_id (i : FormId) : json :=
  match i with
  | IdNum n => JNum n
  | IdStr s => JStr s
  end.

(* ================================================================== *)
(** ** React elements *)

Inductive Component : Type := HeroBlockC | ContentBlockC | NewsletterBlockC.

Inductive prop : Type :=
| PStr (s : string)
| PBool (b : bool)
| PStyle (css : list (string * string))
| PHandler (fn : string).

(** What a component returns.  [Elem] is a host element with its props and
    children; children that React drops ([null], [false], [undefined]) are
    not listed.  [Comp] is a block component applied to [block] with a
    [key]; [RichText] is the external rich-text component applied to its
    [data] prop, [None] standing for a missing value. *)
Inductive node : Type :=
| Elem (tag : string) (props : list (string * prop)) (children : list node)
| Text (s : string)
| Comp (c : Component) (block : Block) (key : option string)
| RichText (data : option RichTextData).

(** [{s}] for a possibly missing string. *)
Definition text_child (s : option string) : list node :=
  match s with
  | Some s => [Text s]
  | None => []
  end.

(** [s || d] on a possibly missing string: the empty string is falsy. *)
Definition str_or (s : option string) (d : string) : string :=
  match s with
  | Some s => if String.eqb s "" then d else s
  | None => d
  end.

(** [b || false] on a possibly missing boolean. *)
Definition bool_or_false (b : option bool) : bool :=
  match b with
  | Some b => b
  | None => false
  end.

(** Host elements with a given tag, in tree order. *)
Fixpoint elements_by_tag (t : string) (n : node) : list node :=
  match n with
  | Elem tag props children =>
      (if String.eqb tag t then [n] else [])
        ++ flat_map (elements_by_tag t) children
  | _ => []
  end.

(** Rich-text components in the tree, by their [data], in tree order. *)
Fixpoint rich_texts (n : node) : list (option RichTextData) :=
  match n with
  | Elem _ _ children => flat_map rich_texts children
  | RichText d => [d]
  | _ => []
  end.

Fixpoint prop_lookup (k : string) (ps : list (string * prop)) : option prop :=
  match ps with
  | [] => None
  | (k', v) :: r => if String.eqb k k' then Some v else prop_lookup k r
  end.

(* ================================================================== *)
(** ** Submission state *)

Record FormState : Type := mkFormState {
  loading : bool;
  error : option string;
  success : bool
}.

(** The argument of [useState]. *)
Definition initialFormState : FormState := mkFormState false None false.

(* ================================================================== *)
(** ** Renderers *)

(** The content block component. *)
Definition ContentBlock (block : Block) : node :=
  Elem "div" []
    [Elem "div" []
       [Elem "h2" [] (text_child (heading block));
        RichText (content block)]].

Definition wrapperStyle : list (string * string) :=
  [("display", "flex"); ("flexDirection", "column"); ("alignItems", "center");
   ("width", "100%"); ("paddingBottom", "20px")].

Definition formStyle : list (string * string) :=
  [("width", "100%"); ("maxWidth", "400px")].

Definition fieldStyle : list (string * string) :=
  [("marginBottom", "10px"); ("display", "flex"); ("flexDirection", "column");
   ("gap", "5px"); ("maxWidth", "100%")].

Definition inputStyle : list (string * string) :=
  [("width", "100%"); ("padding", "10px"); ("borderRadius", "5px");
   ("border", "1px solid #ccc")].

(** The callback of [block.form.fields?.map]: nothing for a field without a
    [name] key, otherwise a labelled input. *)
Definition renderField (field : FormField) : list node :=
  match name field with
  | None => []
  | Some nm =>
      [Elem "div" [("key", PStr nm); ("style", PStyle fieldStyle)]
         [Elem "label" [("htmlFor", PStr nm)] (text_child (label field));
          Elem "input"
            [("type", PStr (if String.eqb (field_blockType field) "email"
                            then "email" else "text"));
             ("name", PStr nm);
             ("required", PBool (bool_or_false (required field)));
             ("placeholder", PStr (str_or (label field) ""));
             ("style", PStyle inputStyle)]
            []]]
  end.

Definition renderFields (fs : option (list FormField)) : list node :=
  match fs with
  | Some l => flat_map renderField l
  | None => []
  end.

(** [{formState.error && <p ...>}]: [null] renders nothing and so does the
    empty string. *)
Definition errorArea (st : FormState) : list node :=
  match error st with
  | Some msg =>
      if String.eqb msg "" then []
      else [Elem "p" [("style", PStyle [("color", "red")])] [Text msg]]
  | None => []
  end.

(** The success branch passes [confirmationMessage!] straight to the
    rich-text component. *)
Definition resultArea (f : Form) (st : FormState) : node :=
  if success st then
    Elem "div" [("style", PStyle [("color", "green")])]
      [RichText (confirmationMessage f)]
  else
    Elem "button" [("type", PStr "submit")]
      [Text (str_or (submitButtonLabel f) "Submit")].

Definition sentinelTitle : string := "newsletter-form-1".

(** The markup below the wrapper of a gated block. *)
Definition formUI (block : Block) (f : Form) (st : FormState) : node :=
  Elem "div" [("style", PStyle wrapperStyle)]
    [Elem "h2" [] (text_child (heading block));
     Elem "form"
       [("className", PStr "form"); ("onSubmit", PHandler "handleSubmit");
        ("style", PStyle formStyle)]
       (renderFields (fields f) ++ errorArea st ++ [resultArea f st])].

(** The render gate:
    [typeof block?.form === 'object' && block?.form?.title === '...']. *)
Definition gate (block : Block) : bool :=
  JsType_eqb (typeof (form block)) TObject
  && match form_title (form block) with
     | Some t => String.eqb t sentinelTitle
     | None => false
     end.

(** The newsletter block component at submission state [st]. *)
Definition NewsletterBlock (block : Block) (st : FormState) : node :=
  Elem "div" []
    (if gate block then
       match form block with
       | RefObj f => [formUI block f st]
       | _ => []
       end
     else []).

(** [renderBlock] of [page.tsx]; [None] is [null]. *)
Definition renderBlock (block : Block) : option node :=
  if String.eqb (blockType block) "hero" then
    Some (Comp HeroBlockC block (block_id block))
  else if String.eqb (blockType block) "content" then
    Some (Comp ContentBlockC block (block_id block))
  else if String.eqb (blockType block) "newsletter-form" then
    Some (Comp NewsletterBlockC block (block_id block))
  else None.

(** [page.layout?.map((block) => renderBlock(block))] *)
Definition renderLayout (l : option (list Block)) : list (option node) :=
  match l with
  | Some bs => map renderBlock bs
  | None => []
  end.

(** The children React keeps from an array of elements and [null]s. *)
Fixpoint kept (l : list (option node)) : list node :=
  match l with
  | [] => []
  | Some n :: r => n :: kept r
  | None :: r => kept r
  end.

(** What [HomePage] returns once the content source has answered with
    [page] ([None]: no document matched the slug). *)
Definition HomePage (page : option Page) : node :=
  match page with
  | None => Elem "div" [] [Text "Page not found"]
  | Some p =>
      Elem "div" []
        [Elem "div" [("className", PStr "page")]
           (kept (renderLayout (layout p)))]
  end.

(* ================================================================== *)
(** ** The browser side: native form, network, console, timers *)

(** A control of the native form: its [name] attribute, its current value
    and the default value [reset()] restores. *)
Record Control : Type := mkControl {
  control_name : string;
  control_value : string;
  control_default : string
}.

Definition name_attr (n : node) : string :=
  match n with
  | Elem _ props _ =>
      match prop_lookup "name" props with
      | Some (PStr s) => s
      | _ => ""
      end
  | _ => ""
  end.

(** The controls the browser creates for a rendered tree: one per [input]
    element, in tree order.  The inputs carry no [value] attribute, so value
    and default value start empty. *)
Definition mount (n : node) : list Control :=
  map (fun i => mkControl (name_attr i) "" "") (elements_by_tag "input" n).

(** The user types [vals] into the controls, first to last. *)
Fixpoint type_values (vals : list string) (cs : list Control) : list Control :=
  match vals, cs with
  | v :: vs, c :: r =>
      mkControl (control_name c) v (control_default c) :: type_values vs r
  | _, _ => cs
  end.

(** [new FormData(form)]: the entry list of the form, one entry per control
    whose name is not empty, in tree order. *)
Definition formDataEntries (cs : list Control) : list (string * string) :=
  flat_map (fun c => if String.eqb (control_name c) "" then []
                     else [(control_name c, control_value c)]) cs.

(** [form.reset()] *)
Definition resetControls (cs : list Control) : list Control :=
  map (fun c => mkControl (control_name c) (control_default c)
                          (control_default c)) cs.

Record RequestInit : Type := mkInit {
  method : string;
  body : json;
  headers : list (string * string)
}.

Record Response : Type := mkResponse { status : Z }.

(** [response.ok] *)
Definition ok (r : Response) : bool := (200 <=? status r) && (status r <=? 299).

(** How the promise returned by [fetch] settles. *)
Inductive Settled : Type :=
| Fulfilled (r : Response)
| Rejected (e : JsError).

(** The closure handed to [setTimeout], by its body. *)
Inductive Callback : Type :=
| CbSetFormState (s : FormState).

(** Everything the handler does to its environment, in program order. *)
Inductive Event : Type :=
| EvPreventDefault
| EvSetFormState (s : FormState)
| EvConsoleLog (data : JsObject.t string)
| EvFetch (url : string) (init : RequestInit)
| EvFormReset
| EvSetTimeout (cb : Callback) (ms : Z)
| EvConsoleError (e : JsError).

Record World : Type := mkWorld {
  formState : FormState;          (* the component's state *)
  controls : list Control;        (* the native form, [e.target] *)
  defaultPrevented : bool;        (* of the submit event *)
  clock : Z;                      (* milliseconds *)
  timers : list (Z * Callback);   (* pending timers by due time *)
  events : list Event             (* log of effects, oldest first *)
}.

(** The collaborator endpoint. *)
Record Env : Type := mkEnv {
  respond : string -> RequestInit -> Settled
}.

Definition log (ev : Event) (w : World) : World :=
  mkWorld (formState w) (controls w) (defaultPrevented w) (clock w)
          (timers w) (events w ++ [ev]).

Definition with_formState (s : FormState) (w : World) : World :=
  mkWorld s (controls w) (defaultPrevented w) (clock w) (timers w) (events w).

Definition with_controls (cs : list Control) (w : World) : World :=
  mkWorld (formState w) cs (defaultPrevented w) (clock w) (timers w) (events w).

Definition with_prevented (w : World) : World :=
  mkWorld (formState w) (controls w) true (clock w) (timers w) (events w).

Definition with_clock (t : Z) (w : World) : World :=
  mkWorld (formState w) (controls w) (defaultPrevented w) t (timers w) (events w).

Definition with_timers (ts : list (Z * Callback)) (w : World) : World :=
  mkWorld (formState w) (controls w) (defaultPrevented w) (clock w) ts (events w).

(** Timers fire by due time, equal due times in the order they were set. *)
Fixpoint insert_timer (due : Z) (cb : Callback) (ts : list (Z * Callback))
  : list (Z * Callback) :=
  match ts with
  | [] => [(due, cb)]
  | (d, c) :: r =>
      if d <=? due then (d, c) :: insert_timer due cb r
      else (due, cb) :: (d, c) :: r
  end.

(* ================================================================== *)
(** ** Programs over the effects of the handler *)

Inductive Eff : Type -> Type :=
| PreventDefault : Eff unit
| SetFormState (s : FormState) : Eff unit
| NewFormData : Eff (list (string * string))
| ConsoleLog (data : JsObject.t string) : Eff unit
| Fetch (url : string) (init : RequestInit) : Eff Settled
| FormReset : Eff unit
| SetTimeout (cb : Callback) (ms : Z) : Eff unit
| ConsoleError (e : JsError) : Eff unit.

Inductive Prog (A : Type) : Type :=
| Ret (a : A)
| Throw (e : JsError)
| Vis (X : Type) (e : Eff X) (k : X -> Prog A).

Arguments Ret {A} a.
Arguments Throw {A} e.
Arguments Vis {A X} e k.

Fixpoint bind {A B} (p : Prog A) (f : A -> Prog B) : Prog B :=
  match p with
  | Ret a => f a
  | Throw e => Throw e
  | Vis e k => Vis e (fun x => bind (k x) f)
  end.

(** [try { p } catch (error) { h error }] *)
Fixpoint try_catch {A} (p : Prog A) (h : JsError -> Prog A) : Prog A :=
  match p with
  | Ret a => Ret a
  | Throw e => h e
  | Vis e k => Vis e (fun x => try_catch (k x) h)
  end.

Definition perform {X} (e : Eff X) : Prog X := Vis e (fun x => Ret x).

(** [await] on the promise of [fetch]: a rejection is thrown. *)
Definition await (e : Eff Settled) : Prog Response :=
  Vis e (fun s => match s with
                  | Fulfilled r => Ret r
                  | Rejected err => Throw err
                  end).

Declare Scope prog_scope.
Delimit Scope prog_scope with prog.
Notation "x <- p ;; q" := (bind p (fun x => q))
  (at level 61, p at next level, right associativity) : prog_scope.
Notation "p ;; q" := (bind p (fun _ => q))
  (at level 61, right associativity) : prog_scope.
Local Open Scope prog_scope.

(** One effect against the world. *)
Definition step {X} (e : Eff X) (env : Env) (w : World) : World * X :=
  match e in Eff X return World * X with
  | PreventDefault => (log EvPreventDefault (with_prevented w), tt)
  | SetFormState s => (log (EvSetFormState s) (with_formState s w), tt)
  | NewFormData => (w, formDataEntries (controls w))
  | ConsoleLog d => (log (EvConsoleLog d) w, tt)
  | Fetch url init => (log (EvFetch url init) w, respond env url init)
  | FormReset =>
      (log EvFormReset (with_controls (resetControls (controls w)) w), tt)
  | SetTimeout cb ms =>
      (log (EvSetTimeout cb ms)
           (with_timers (insert_timer (clock w + Z.max 0 ms) cb (timers w)) w),
       tt)
  | ConsoleError err => (log (EvConsoleError err) w, tt)
  end.

(** Running a program: the final world and either its result or the value
    it threw. *)
Fixpoint run {A} (p : Prog A) (env : Env) (w : World) : World * (A + JsError) :=
  match p with
  | Ret a => (w, inl a)
  | Throw e => (w, inr e)
  | Vis e k => let (w', x) := step e env w in run (k x) env w'
  end.

Definition exec {A} (p : Prog A) (env : Env) (w : World) : World :=
  fst (run p env w).

(* ================================================================== *)
(** ** The submission client *)

Definition loadingState : FormState := mkFormState true None false.
Definition successState : FormState := mkFormState false None true.
Definition errorState : FormState :=
  mkFormState false (Some "Failed to submit form") false.

Definition endpoint : string := "/api/form-submissions".

(** [Object.entries(data)?.map(([field, value]) => ({ field, value }))] *)
Definition submissionData (data : JsObject.t string) : list json :=
  map (fun fv => JObj [("field", JStr (fst fv)); ("value", JStr (snd fv))])
      (JsObject.entries data).

Definition requestInit (f : Form) (data : JsObject.t string) : RequestInit :=
  mkInit "POST"
         (JObj [("form", json_of_id (form_id f));
                ("submissionData", JArr (submissionData data))])
         [("Content-Type", "application/json")].

(** The guard [!block.form || typeof block.form !== 'object']. *)
Definition unresolved (block : Block) : bool :=
  negb (truthy (form block))
  || negb (JsType_eqb (typeof (form block)) TObject).

Definition handleSubmit (block : Block) : Prog unit :=
  perform PreventDefault ;;
  if unresolved block then Ret tt
  else
    match form block with
    | RefObj f =>
        perform (SetFormState loadingState) ;;
        formData <- perform NewFormData ;;
        let data := JsObject.fromEntries formData in
        perform (ConsoleLog data) ;;
        try_catch
          (response <- await (Fetch endpoint (requestInit f data)) ;;
           if negb (ok response) then Throw (Error "Failed to submit form")
           else
             perform (SetFormState successState) ;;
             perform FormReset ;;
             perform (SetTimeout (CbSetFormState initialFormState) 5000))
          (fun error =>
             perform (ConsoleError error) ;;
             perform (SetFormState errorState))
    | _ => Ret tt (* excluded by the guard *)
    end.

(** The body of a timer callback. *)
Definition callback (cb : Callback) : Prog unit :=
  match cb with
  | CbSetFormState s => perform (SetFormState s)
  end.

(** Fire, in order, the timers that are due at [now]. *)
Fixpoint fire_due (env : Env) (now : Z) (ts : list (Z * Callback)) (w : World)
  : World :=
  match ts with
  | [] => w
  | (due, cb) :: r =>
      if due <=? now
      then fire_due env now r (exec (callback cb) env (with_timers r w))
      else w
  end.

(** [dt] milliseconds pass. *)
Definition advance (env : Env) (dt : Z) (w : World) : World :=
  let now := clock w + dt in
  fire_due env now (timers w) (with_clock now w).

(** A freshly mounted newsletter block: initial state, the controls of its
    first render, nothing logged, no timer pending. *)
Definition mounted (block : Block) : World :=
  mkWorld initialFormState (mount (NewsletterBlock block initialFormState))
          false 0 [] [].

(** Projections of the log. *)
Definition requests (w : World) : list (string * RequestInit) :=
  flat_map (fun ev => match ev with EvFetch u i => [(u, i)] | _ => [] end)
           (events w).

Definition transitions (w : World) : list FormState :=
  flat_map (fun ev => match ev with EvSetFormState s => [s] | _ => [] end)
           (events w).

Definition diagnostics (w : World) : list JsError :=
  flat_map (fun ev => match ev with EvConsoleError e => [e] | _ => [] end)
           (events w).

Definition resets (w : World) : nat :=
  length (filter (fun ev => match ev with EvFormReset => true | _ => false end)
                 (events w)).

(* ================================================================== *)
(** ** Reference notions and outcomes of a run *)

(** The value an entry list gives to a name when later entries win. *)
Fixpoint last_value (n : string) (es : list (string * string)) : option string :=
  match es with
  | [] => None
  | (k, v) :: r =>
      match last_value n r with
      | Some x => Some x
      | None => if String.eqb n k then Some v else None
      end
  end.

(** Names in order of first occurrence. *)
Fixpoint first_occurrences (seen ks : list string) : list string :=
  match ks with
  | [] => []
  | k :: r =>
      if existsb (String.eqb k) seen then first_occurrences seen r
      else k :: first_occurrences (seen ++ [k]) r
  end.

(** The mapping collected from the native form of [w]. *)
Definition collected (w : World) : JsObject.t string :=
  JsObject.fromEntries (formDataEntries (controls w)).

(** The reply of the endpoint to the submission of [f] from [w]. *)
Definition reply (env : Env) (f : Form) (w : World) : Settled :=
  respond env endpoint (requestInit f (collected w)).

(** The world after a submission the endpoint accepted. *)
Definition accepted (f : Form) (w : World) : World :=
  mkWorld successState (resetControls (controls w)) true (clock w)
    (insert_timer (clock w + 5000) (CbSetFormState initialFormState) (timers w))
    (events w ++
       [EvPreventDefault; EvSetFormState loadingState;
        EvConsoleLog (collected w);
        EvFetch endpoint (requestInit f (collected w));
        EvSetFormState successState; EvFormReset;
        EvSetTimeout (CbSetFormState initialFormState) 5000]).

(** The world after a submission that ended in the [catch] clause with
    [e]. *)
Definition failed (f : Form) (e : JsError) (w : World) : World :=
  mkWorld errorState (controls w) true (clock w) (timers w)
    (events w ++
       [EvPreventDefault; EvSetFormState loadingState;
        EvConsoleLog (collected w);
        EvFetch endpoint (requestInit f (collected w));
        EvConsoleError e; EvSetFormState errorState]).

(** The block types [renderBlock] has a case for. *)
Definition recognized (b : Block) : bool :=
  String.eqb (blockType b) "hero"
  || String.eqb (blockType b) "content"
  || String.eqb (blockType b) "newsletter-form".

(** The block a component element was made for. *)
Definition rendered_block (n : node) : option Block :=
  match n with
  | Comp _ b _ => Some b
  | _ => None
  end.

(** The names of the fields that have one, in order. *)
Definition field_names (fs : option (list FormField)) : list string :=
  match fs with
  | Some l =>
      flat_map (fun fld => match name fld with Some n => [n] | None => [] end) l
  | None => []
  end.

Definition has_name (fld : FormField) : bool :=
  match name fld with Some _ => true | None => false end.

(** ** The page as a whole *)

(** [const { docs: [page] } = await payload.find(...)]: the page is the
    first document of the answer, if there is one. *)
Definition HomePageOf (docs : list Page) : node := HomePage (hd_error docs).

(** The first render of a component element.  The hero component is not
    part of the sources at hand and is taken as given; the newsletter block
    starts in the state of [useState]. *)
Definition renderComponent (HeroBlock : Block -> node) (n : node) : node :=
  match n with
  | Comp HeroBlockC b _ => HeroBlock b
  | Comp ContentBlockC b _ => ContentBlock b
  | Comp NewsletterBlockC b _ => NewsletterBlock b initialFormState
  | _ => n
  end.

(** The sections of a page on first render, in order. *)
Definition renderSections (HeroBlock : Block -> node) (l : option (list Block))
  : list node :=
  map (renderComponent HeroBlock) (kept (renderLayout l)).

(** The component elements of a tree, in tree order. *)
Fixpoint components (n : node) : list node :=
  match n with
  | Elem _ _ children => flat_map components children
  | Comp _ _ _ => [n]
  | _ => []
  end.

(** The newsletter blocks of a layout whose form is shown. *)
Definition shownForm (b : Block) : bool :=
  String.eqb (blockType b) "newsletter-form" && gate b.

Definition props_of (n : node) : list (string * prop) :=
  match n with
  | Elem _ ps _ => ps
  | _ => []
  end.

(** The [type] attribute of the input of a field. *)
Definition inputType (fld : FormField) : string :=
  if String.eqb (field_blockType fld) "email" then "email" else "text".

Definition is_index_name (k : string) : bool :=
  match JsObject.array_index k with Some _ => true | None => false end.

(** The number an array-index name stands for. *)
Definition index_value (k : string) : N :=
  match JsObject.array_index k with Some i => i | None => 0%N end.

(** Order of indexed properties by their index. *)
Definition by_index (V : Type) (a b : N * (string * V)) : Prop :=
  (fst a <= fst b)%N.

(** ** Sample data

    The scenario of the specification: a newsletter block whose form has an
    email field (and a message block, which has no name), the address the
    user typed, and endpoints that answer with a given status or not at
    all. *)

Definition emailField : FormField :=
  mkField "email" (Some "email") (Some "Email") (Some true).

Definition messageField : FormField := mkField "message" None None None.

Definition sampleForm : Form :=
  mkForm (IdNum 42) "newsletter-form-1" (Some [emailField; messageField])
         (Some "Join") None.

Definition sampleBlock : Block :=
  mkBlock "newsletter-form" (Some "b3") (Some "Subscribe") None
          (RefObj sampleForm).

Definition unresolvedBlock : Block :=
  mkBlock "newsletter-form" (Some "b3") (Some "Subscribe") None
          (RefId (IdNum 42)).

Definition sampleLayout : list Block :=
  [mkBlock "hero" (Some "b1") (Some "Welcome") None RefUndefined;
   mkBlock "banner" (Some "b0") None None RefUndefined;
   mkBlock "content" (Some "b2") (Some "About") (Some (JStr "doc")) RefUndefined;
   sampleBlock].

Definition sampleWorld : World :=
  with_controls (type_values ["a@b.com"] (controls (mounted sampleBlock)))
                (mounted sampleBlock).

Definition envStatus (s : Z) : Env :=
  mkEnv (fun _ _ => Fulfilled (mkResponse s)).

Definition envOffline : Env :=
  mkEnv (fun _ _ => Rejected (mkError "TypeError" "Failed to fetch")).

Definition checkboxField : FormField :=
  mkField "checkbox" (Some "agree") None None.

Definition surveyFields : list FormField :=
  [emailField; messageField; checkboxField].

Definition surveyForm : Form :=
  mkForm (IdNum 1) "newsletter-form-1" (Some surveyFields) None None.

Definition surveyBlock : Block :=
  mkBlock "newsletter-form" None None None (RefObj surveyForm).

Definition sampleHero (b : Block) : node :=
  Elem "section" [] [Elem "h1" [] (text_child (heading b))].

(* ================================================================== *)
(** * Properties *)

(** ** Plain objects *)

Section ObjectFacts.
Variable V : Type.
Implicit Types (o : JsObject.t V) (k n : string) (v : V).

Lemma get_set n k v o :
  JsObject.get n (JsObject.set k v o)
  = if String.eqb n k then Some v else JsObject.get n o.
Proof.
  induction o as [|[k' v'] r IH]; simpl.
  - destruct (String.eqb n k); reflexivity.
  - destruct (String.eqb_spec k k') as [->|Hkk']; simpl.
    + destruct (String.eqb n k'); reflexivity.
    + rewrite IH.
      destruct (String.eqb_spec n k') as [->|Hn].
      * destruct (String.eqb_spec k' k); congruence.
      * reflexivity.
Qed.

Lemma keys_set k v o :
  JsObject.keys (JsObject.set k v o)
  = if existsb (String.eqb k) (JsObject.keys o)
    then JsObject.keys o else JsObject.keys o ++ [k].
Proof.
  unfold JsObject.keys.
  induction o as [|[k' v'] r IH]; simpl; [reflexivity|].
  destruct (String.eqb_spec k k') as [->|Hkk']; simpl; [reflexivity|].
  rewrite IH. destruct (existsb _ _); reflexivity.
Qed.

Lemma existsb_eqb_In k (l : list string) :
  existsb (String.eqb k) l = true <-> In k l.
Proof.
  rewrite existsb_exists. split.
  - intros (x & Hx & E). apply String.eqb_eq in E. now subst.
  - intros H. exists k. split; [assumption | apply String.eqb_refl].
Qed.

Lemma NoDup_keys_set k v o :
  NoDup (JsObject.keys o) -> NoDup (JsObject.keys (JsObject.set k v o)).
Proof.
  intros H. rewrite keys_set.
  destruct (existsb (String.eqb k) (JsObject.keys o)) eqn:E; [assumption|].
  apply NoDup_app_remove_l with (l := []). simpl.
  apply Permutation_NoDup with (l := k :: JsObject.keys o).
  - apply Permutation_cons_append.
  - constructor; [|assumption].
    intros Hin. apply existsb_eqb_In in Hin. congruence.
Qed.

Lemma NoDup_keys_fold (es : list (string * V)) o :
  NoDup (JsObject.keys o) -> NoDup (JsObject.keys (fold_left (@JsObject.assign V) es o)).
Proof.
  revert o. induction es as [|e r IH]; intros o H; simpl; [assumption|].
  apply IH. now apply NoDup_keys_set.
Qed.

Lemma NoDup_keys_fromEntries (es : list (string * V)) :
  NoDup (JsObject.keys (JsObject.fromEntries es)).
Proof. apply NoDup_keys_fold. constructor. Qed.

Lemma keys_fold (es : list (string * V)) o :
  JsObject.keys (fold_left (@JsObject.assign V) es o)
  = JsObject.keys o ++ first_occurrences (JsObject.keys o) (map fst es).
Proof.
  revert o. induction es as [|[k v] r IH]; intros o; simpl.
  - now rewrite app_nil_r.
  - rewrite IH. unfold JsObject.assign. simpl. rewrite keys_set.
    destruct (existsb (String.eqb k) (JsObject.keys o)); [reflexivity|].
    now rewrite <- app_assoc.
Qed.

(** The keys of [Object.fromEntries] are the names in order of first
    occurrence. *)
Lemma keys_fromEntries (es : list (string * V)) :
  JsObject.keys (JsObject.fromEntries es) = first_occurrences [] (map fst es).
Proof. apply (keys_fold es []). Qed.

Lemma In_first_occurrences k (seen ks : list string) :
  In k (first_occurrences seen ks) -> In k ks.
Proof.
  revert seen. induction ks as [|a r IH]; intros seen; simpl; [tauto|].
  destruct (existsb (String.eqb a) seen); simpl; intros H.
  - right. eauto.
  - destruct H; [now left | right; eauto].
Qed.

Lemma insert_index_perm i (p : string * V) l :
  Permutation (JsObject.insert_index i p l) ((i, p) :: l).
Proof.
  induction l as [|[j q] r IH]; simpl; [reflexivity|].
  destruct (i <=? j)%N; [reflexivity|].
  rewrite IH. apply perm_swap.
Qed.

(** [Object.entries] lists every property exactly once. *)
Lemma entries_perm o : Permutation (JsObject.entries o) o.
Proof.
  unfold JsObject.entries, JsObject.named_props.
  induction o as [|p r IH]; simpl; [reflexivity|].
  unfold JsObject.is_named at 1.
  destruct (JsObject.array_index (fst p)) as [i|].
  - rewrite (Permutation_map snd (insert_index_perm i p _)). simpl.
    now constructor.
  - rewrite <- Permutation_middle. now constructor.
Qed.

(** Without array-index keys the order is the creation order. *)
Lemma entries_named o :
  forallb (@JsObject.is_named V) o = true -> JsObject.entries o = o.
Proof.
  unfold JsObject.entries, JsObject.named_props.
  induction o as [|p r IH]; simpl; [reflexivity|].
  intros H. apply andb_prop in H as [Hp Hr].
  rewrite Hp. unfold JsObject.is_named in Hp.
  destruct (JsObject.array_index (fst p)); [discriminate|].
  specialize (IH Hr).
  destruct (JsObject.index_props r) eqn:E.
  - simpl in *. now rewrite IH.
  - exfalso. clear IH Hp.
    assert (Hin : In p0 (JsObject.index_props r)) by (rewrite E; now left).
    clear E. revert Hin. generalize p0. clear p0 l.
    induction r as [|q r' IHr]; simpl; intros p0 Hin; [assumption|].
    simpl in Hr. apply andb_prop in Hr as [Hq Hr'].
    unfold JsObject.is_named in Hq.
    destruct (JsObject.array_index (fst q)); [discriminate|]. eauto.
Qed.

Lemma In_entries_key k v o :
  In (k, v) (JsObject.entries o) -> In k (JsObject.keys o).
Proof.
  intros H. apply (Permutation_in _ (entries_perm o)) in H.
  unfold JsObject.keys. now apply (in_map fst) in H.
Qed.

End ObjectFacts.

Example property_order :
  JsObject.entries
    (JsObject.fromEntries
       [("email", "a"); ("7", "s"); ("email", "b"); ("3", "t"); ("03", "z")])
  = [("3", "t"); ("7", "s"); ("email", "b"); ("03", "z")].
Proof. reflexivity. Qed.

(** Last value wins. *)
Lemma get_fold n (es : list (string * string)) (o : JsObject.t string) :
  JsObject.get n (fold_left (@JsObject.assign string) es o)
  = match last_value n es with
    | Some x => Some x
    | None => JsObject.get n o
    end.
Proof.
  revert o. induction es as [|[k v] r IH]; intros o; simpl; [reflexivity|].
  rewrite IH. destruct (last_value n r); [reflexivity|].
  unfold JsObject.assign. simpl. rewrite get_set.
  now destruct (String.eqb n k).
Qed.

Lemma get_fromEntries n (es : list (string * string)) :
  JsObject.get n (JsObject.fromEntries es) = last_value n es.
Proof.
  unfold JsObject.fromEntries.
  rewrite get_fold. simpl. now destruct (last_value n es).
Qed.

Lemma In_entries_fromEntries k v (es : list (string * string)) :
  In (k, v) (JsObject.entries (JsObject.fromEntries es)) -> In k (map fst es).
Proof.
  intros H. apply In_entries_key in H. rewrite keys_fromEntries in H.
  now apply In_first_occurrences in H.
Qed.

(** ** What one run of the handler does *)

Ltac run_handler Hform :=
  unfold handleSubmit, unresolved, reply in *; rewrite Hform; simpl.

(** Two worlds with the same components are the same. *)
Lemma World_ext (a b : World) :
  formState a = formState b ->
  controls a = controls b ->
  defaultPrevented a = defaultPrevented b ->
  clock a = clock b ->
  timers a = timers b ->
  events a = events b ->
  a = b.
Proof. destruct a, b; simpl; intros; subst; reflexivity. Qed.

Ltac same_world :=
  apply World_ext; simpl; rewrite <- ?app_assoc; reflexivity.

Lemma handleSubmit_accepted env block f w r :
  form block = RefObj f ->
  reply env f w = Fulfilled r ->
  ok r = true ->
  run (handleSubmit block) env w = (accepted f w, inl tt).
Proof.
  intros Hform Hreply Hok. run_handler Hform.
  fold (collected w). rewrite Hreply. simpl. rewrite Hok. simpl.
  f_equal. same_world.
Qed.

Lemma handleSubmit_not_ok env block f w r :
  form block = RefObj f ->
  reply env f w = Fulfilled r ->
  ok r = false ->
  run (handleSubmit block) env w
  = (failed f (Error "Failed to submit form") w, inl tt).
Proof.
  intros Hform Hreply Hok. run_handler Hform.
  fold (collected w). rewrite Hreply. simpl. rewrite Hok. simpl.
  f_equal. same_world.
Qed.

Lemma handleSubmit_rejected env block f w e :
  form block = RefObj f ->
  reply env f w = Rejected e ->
  run (handleSubmit block) env w = (failed f e w, inl tt).
Proof.
  intros Hform Hreply. run_handler Hform.
  fold (collected w). rewrite Hreply. simpl.
  f_equal. same_world.
Qed.

Lemma unresolved_spec block :
  unresolved block = true <-> forall f, form block <> RefObj f.
Proof.
  unfold unresolved. destruct (form block) as [| |[n|s]|f]; simpl.
  1-2: split; [intros _ f; discriminate | reflexivity].
  1-2: rewrite orb_true_r; split; [intros _ f; discriminate | reflexivity].
  split; [discriminate | intros H; now elim (H f)].
Qed.

Lemma handleSubmit_unresolved env block w :
  (forall f, form block <> RefObj f) ->
  run (handleSubmit block) env w
  = (log EvPreventDefault (with_prevented w), inl tt).
Proof.
  intros H. apply unresolved_spec in H.
  unfold handleSubmit. simpl. rewrite H. reflexivity.
Qed.

(** A run of the handler always returns: nothing escapes the [catch]. *)
Lemma handleSubmit_returns env block w :
  snd (run (handleSubmit block) env w) = inl tt.
Proof.
  destruct (form block) as [| |i|f] eqn:Hform.
  1-3: rewrite handleSubmit_unresolved; [reflexivity | congruence].
  destruct (reply env f w) as [r|e] eqn:Hreply.
  - destruct (ok r) eqn:Hok.
    + now rewrite (@handleSubmit_accepted _ _ _ _ _ Hform Hreply Hok).
    + now rewrite (@handleSubmit_not_ok _ _ _ _ _ Hform Hreply Hok).
  - now rewrite (@handleSubmit_rejected _ _ _ _ _ Hform Hreply).
Qed.

Lemma requests_app w evs :
  flat_map (fun ev => match ev with EvFetch u i => [(u, i)] | _ => [] end)
           (events w ++ evs)
  = requests w
    ++ flat_map (fun ev => match ev with EvFetch u i => [(u, i)] | _ => [] end)
                evs.
Proof. unfold requests. apply flat_map_app. Qed.

Lemma transitions_app w evs :
  flat_map (fun ev => match ev with EvSetFormState s => [s] | _ => [] end)
           (events w ++ evs)
  = transitions w
    ++ flat_map (fun ev => match ev with EvSetFormState s => [s] | _ => [] end)
                evs.
Proof. unfold transitions. apply flat_map_app. Qed.

Lemma diagnostics_app w evs :
  flat_map (fun ev => match ev with EvConsoleError e => [e] | _ => [] end)
           (events w ++ evs)
  = diagnostics w
    ++ flat_map (fun ev => match ev with EvConsoleError e => [e] | _ => [] end)
                evs.
Proof. unfold diagnostics. apply flat_map_app. Qed.

(** Every submit on a resolved form sends one request. *)
Lemma requests_after_submit env block f w :
  form block = RefObj f ->
  requests (exec (handleSubmit block) env w)
  = requests w ++ [(endpoint, requestInit f (collected w))].
Proof.
  intros Hform. unfold exec.
  destruct (reply env f w) as [r|e] eqn:Hreply.
  - destruct (ok r) eqn:Hok.
    + rewrite (@handleSubmit_accepted _ _ _ _ _ Hform Hreply Hok).
      unfold requests at 1. simpl. rewrite requests_app. reflexivity.
    + rewrite (@handleSubmit_not_ok _ _ _ _ _ Hform Hreply Hok).
      unfold requests at 1. simpl. rewrite requests_app. reflexivity.
  - rewrite (@handleSubmit_rejected _ _ _ _ _ Hform Hreply).
    unfold requests at 1. simpl. rewrite requests_app. reflexivity.
Qed.

(** ** The submission client *)

(** C1. A submit on a block whose form reference is a resolved object
    collects every named control of the native form into a mapping in which
    the last value for a name wins, lists that mapping as [{field, value}]
    pairs, one per name, and sends exactly one request: a POST to
    [/api/form-submissions] with body
    [{ form: <form id>, submissionData: [...] }] and the header
    [Content-Type: application/json]. *)
Theorem submit_posts_collected_payload env block f w :
  form block = RefObj f ->
  let entries := formDataEntries (controls w) in
  let data := JsObject.fromEntries entries in
  let w' := exec (handleSubmit block) env w in
  (forall c, In c (controls w) -> control_name c <> "" ->
             In (control_name c, control_value c) entries)
  /\ (forall n, JsObject.get n data = last_value n entries)
  /\ NoDup (map fst (JsObject.entries data))
  /\ Permutation (JsObject.entries data) data
  /\ requests w' =
     requests w ++
     [("/api/form-submissions",
       mkInit "POST"
         (JObj [("form", json_of_id (form_id f));
                ("submissionData",
                 JArr (map (fun fv => JObj [("field", JStr (fst fv));
                                            ("value", JStr (snd fv))])
                           (JsObject.entries data)))])
         [("Content-Type", "application/json")])].
Proof.
  intros Hform entries data w'. repeat split.
  - intros c Hc Hname. unfold entries, formDataEntries.
    apply in_flat_map. exists c. split; [assumption|].
    destruct (String.eqb_spec (control_name c) ""); [contradiction | now left].
  - intros n. apply get_fromEntries.
  - apply Permutation_NoDup with (l := JsObject.keys data).
    + unfold JsObject.keys. apply Permutation_map, Permutation_sym, entries_perm.
    + apply NoDup_keys_fromEntries.
  - apply entries_perm.
  - apply (@requests_after_submit env block f w Hform).
Qed.

Lemma submit_posts_collected_payload_witness :
  form sampleBlock = RefObj sampleForm
  /\ requests (exec (handleSubmit sampleBlock) (envStatus 200) sampleWorld) =
     [("/api/form-submissions",
       mkInit "POST"
         (JObj [("form", JNum 42);
                ("submissionData",
                 JArr [JObj [("field", JStr "email");
                             ("value", JStr "a@b.com")]])])
         [("Content-Type", "application/json")])].
Proof.
  split; [reflexivity|].
  exact (proj2 (proj2 (proj2 (proj2
    (submit_posts_collected_payload (envStatus 200) sampleBlock sampleWorld
                                    eq_refl))))).
Defined.

(** ** Rendering of the newsletter block *)

Lemma NewsletterBlock_gated block f st :
  form block = RefObj f ->
  title f = "newsletter-form-1" ->
  NewsletterBlock block st = Elem "div" [] [formUI block f st].
Proof.
  intros Hform Htitle. unfold NewsletterBlock, gate.
  rewrite Hform. simpl. unfold sentinelTitle. rewrite Htitle. reflexivity.
Qed.

Lemma gate_spec block :
  gate block = true
  <-> exists f, form block = RefObj f /\ title f = "newsletter-form-1".
Proof.
  unfold gate. destruct (form block) as [| |[n|s]|f]; simpl.
  1-4: split; [discriminate | intros (f & H & _); discriminate].
  unfold sentinelTitle. split.
  - intros H. apply String.eqb_eq in H. now exists f.
  - intros (f' & H & Ht). injection H as <-. now apply String.eqb_eq.
Qed.

Lemma NewsletterBlock_ungated block st :
  gate block = false -> NewsletterBlock block st = Elem "div" [] [].
Proof. intros H. unfold NewsletterBlock. now rewrite H. Qed.

Lemma text_child_no_element t s :
  flat_map (elements_by_tag t) (text_child s) = [].
Proof. destruct s; reflexivity. Qed.

Lemma text_child_no_rich_text s : flat_map rich_texts (text_child s) = [].
Proof. destruct s; reflexivity. Qed.

Ltac prune_render :=
  rewrite ?flat_map_app, ?text_child_no_element, ?text_child_no_rich_text;
  simpl.

Lemma fields_no_button fs :
  flat_map (elements_by_tag "button") (renderFields fs) = [].
Proof.
  destruct fs as [l|]; [|reflexivity]. simpl.
  induction l as [|fld r IH]; [reflexivity|]. simpl.
  rewrite flat_map_app, IH, app_nil_r.
  unfold renderField.
  destruct (name fld); [destruct (label fld)|]; reflexivity.
Qed.

Lemma fields_no_rich_text fs :
  flat_map rich_texts (renderFields fs) = [].
Proof.
  destruct fs as [l|]; [|reflexivity]. simpl.
  induction l as [|fld r IH]; [reflexivity|]. simpl.
  rewrite flat_map_app, IH, app_nil_r.
  unfold renderField.
  destruct (name fld); [destruct (label fld)|]; reflexivity.
Qed.

Lemma resetControls_restores cs :
  Forall (fun c => control_value c = control_default c) (resetControls cs).
Proof.
  unfold resetControls. apply Forall_forall. intros c Hc.
  apply in_map_iff in Hc as (c0 & <- & _). reflexivity.
Qed.

Lemma errorArea_no_button st :
  flat_map (elements_by_tag "button") (errorArea st) = [].
Proof.
  unfold errorArea. destruct (error st) as [msg|]; [|reflexivity].
  destruct (String.eqb msg ""); reflexivity.
Qed.

Lemma errorArea_no_rich_text st : flat_map rich_texts (errorArea st) = [].
Proof.
  unfold errorArea. destruct (error st) as [msg|]; [|reflexivity].
  destruct (String.eqb msg ""); reflexivity.
Qed.

(** A block that passed the gate, rendered in a success state: no button,
    and the rich-text component applied to the confirmation message. *)
Lemma success_render block f st :
  form block = RefObj f ->
  title f = "newsletter-form-1" ->
  success st = true ->
  elements_by_tag "button" (NewsletterBlock block st) = []
  /\ rich_texts (NewsletterBlock block st) = [confirmationMessage f].
Proof.
  intros Hform Htitle Hs.
  rewrite (@NewsletterBlock_gated block f st Hform Htitle).
  unfold formUI, resultArea. rewrite Hs. simpl.
  prune_render.
  rewrite fields_no_button, fields_no_rich_text,
          errorArea_no_button, errorArea_no_rich_text.
  split; reflexivity.
Qed.

(** C2. When the network call of a submit resolves with an ok status, the
    handler sets the state to Loading and then to Success (loading false,
    error null, success true), every control of the native form is back at
    its default value, and the block, rendered in the resulting state, has
    no submit button and shows the confirmation rich text. *)
Theorem ok_response_reaches_success env block f w r :
  form block = RefObj f ->
  reply env f w = Fulfilled r ->
  ok r = true ->
  let w' := exec (handleSubmit block) env w in
  transitions w' =
    transitions w ++ [mkFormState true None false; mkFormState false None true]
  /\ formState w' = mkFormState false None true
  /\ controls w' = resetControls (controls w)
  /\ Forall (fun c => control_value c = control_default c) (controls w')
  /\ (title f = "newsletter-form-1" ->
      elements_by_tag "button" (NewsletterBlock block (formState w')) = []
      /\ rich_texts (NewsletterBlock block (formState w'))
         = [confirmationMessage f]).
Proof.
  intros Hform Hreply Hok w'. unfold w', exec.
  rewrite (@handleSubmit_accepted _ _ _ _ _ Hform Hreply Hok). simpl.
  repeat split.
  - unfold transitions at 1. simpl. rewrite transitions_app. reflexivity.
  - apply resetControls_restores.
  - now apply (@success_render block f successState Hform).
  - now apply (@success_render block f successState Hform).
Qed.

Lemma ok_response_reaches_success_witness :
  let w' := exec (handleSubmit sampleBlock) (envStatus 200) sampleWorld in
  formState sampleWorld = initialFormState
  /\ transitions w' = [loadingState; successState]
  /\ controls sampleWorld = [mkControl "email" "a@b.com" ""]
  /\ controls w' = [mkControl "email" "" ""].
Proof.
  pose proof (@ok_response_reaches_success (envStatus 200) sampleBlock
                sampleForm sampleWorld (mkResponse 200)
                eq_refl eq_refl eq_refl) as (Ht & _ & Hc & _).
  intros w'. split; [reflexivity|]. split; [exact Ht|].
  split; [reflexivity | exact Hc].
Defined.

(** C3. When the network call of a submit resolves with a status that is
    not ok, or throws, the run ends in one and the same Error state: loading
    false, success false, error ["Failed to submit form"], whatever the
    status and whatever was thrown.  The value that reached the [catch]
    clause is written to the console: the thrown failure itself, or the
    handler's own error for a response that is not ok. *)
Theorem failure_reaches_generic_error env block f w :
  form block = RefObj f ->
  let w' := exec (handleSubmit block) env w in
  (forall r, reply env f w = Fulfilled r -> ok r = false ->
     formState w' = mkFormState false (Some "Failed to submit form") false
     /\ transitions w' = transitions w ++ [loadingState; formState w']
     /\ diagnostics w' = diagnostics w ++ [Error "Failed to submit form"])
  /\ (forall e, reply env f w = Rejected e ->
     formState w' = mkFormState false (Some "Failed to submit form") false
     /\ transitions w' = transitions w ++ [loadingState; formState w']
     /\ diagnostics w' = diagnostics w ++ [e]).
Proof.
  intros Hform w'. unfold w', exec. split.
  - intros r Hreply Hok.
    rewrite (@handleSubmit_not_ok _ _ _ _ _ Hform Hreply Hok). simpl.
    repeat split.
    + unfold transitions at 1. simpl. rewrite transitions_app. reflexivity.
    + unfold diagnostics at 1. simpl. rewrite diagnostics_app. reflexivity.
  - intros e Hreply.
    rewrite (@handleSubmit_rejected _ _ _ _ _ Hform Hreply). simpl.
    repeat split.
    + unfold transitions at 1. simpl. rewrite transitions_app. reflexivity.
    + unfold diagnostics at 1. simpl. rewrite diagnostics_app. reflexivity.
Qed.

Lemma failure_reaches_generic_error_witness :
  formState (exec (handleSubmit sampleBlock) (envStatus 500) sampleWorld)
  = errorState
  /\ formState (exec (handleSubmit sampleBlock) (envStatus 429) sampleWorld)
     = errorState
  /\ formState (exec (handleSubmit sampleBlock) envOffline sampleWorld)
     = errorState
  /\ diagnostics (exec (handleSubmit sampleBlock) envOffline sampleWorld)
     = [mkError "TypeError" "Failed to fetch"].
Proof.
  pose proof (@failure_reaches_generic_error (envStatus 500) sampleBlock
                sampleForm sampleWorld eq_refl) as [H500 _].
  pose proof (@failure_reaches_generic_error (envStatus 429) sampleBlock
                sampleForm sampleWorld eq_refl) as [H429 _].
  pose proof (@failure_reaches_generic_error envOffline sampleBlock
                sampleForm sampleWorld eq_refl) as [_ Hoff].
  destruct (H500 (mkResponse 500) eq_refl eq_refl) as (A & _).
  destruct (H429 (mkResponse 429) eq_refl eq_refl) as (B & _).
  destruct (Hoff _ eq_refl) as (C & _ & D).
  split; [exact A|]. split; [exact B|]. split; [exact C | exact D].
Defined.

(** ** Timers *)

(** A timer set for [now] is the last one to fire when the clock reaches
    [now]: the state it sets is the one that remains. *)
Lemma fire_due_inserted env now s ts w :
  formState (fire_due env now (insert_timer now (CbSetFormState s) ts) w) = s.
Proof.
  revert w. induction ts as [|[d c] r IH]; intros w; simpl.
  - rewrite Z.leb_refl. reflexivity.
  - destruct (d <=? now) eqn:Hd; simpl.
    + rewrite Hd. apply IH.
    + rewrite Z.leb_refl. simpl. rewrite Hd. reflexivity.
Qed.

Lemma In_insert_timer due cb ts : In (due, cb) (insert_timer due cb ts).
Proof.
  induction ts as [|[d c] r IH]; simpl; [now left|].
  destruct (d <=? due); simpl; auto.
Qed.

(** C5. Once a submit has reached Success, a timer is pending whose delay
    is the fixed 5000 milliseconds and whose callback sets the state to
    Idle.  Run on any world the callback leaves loading false, error null
    and success false; when the clock has advanced by 5000 the state is
    Idle, with no further event from the user; and with no other timer
    pending the state stays Success for every shorter wait. *)
Theorem success_resets_after_delay env block f w r :
  form block = RefObj f ->
  reply env f w = Fulfilled r ->
  ok r = true ->
  let w' := exec (handleSubmit block) env w in
  formState w' = successState
  /\ In (clock w + 5000, CbSetFormState initialFormState) (timers w')
  /\ (forall w1, formState (exec (callback (CbSetFormState initialFormState))
                                 env w1)
                 = mkFormState false None false)
  /\ formState (advance env 5000 w') = mkFormState false None false
  /\ (timers w = [] ->
      forall dt, 0 <= dt < 5000 -> formState (advance env dt w') = successState).
Proof.
  intros Hform Hreply Hok w'. unfold w', exec.
  rewrite (@handleSubmit_accepted _ _ _ _ _ Hform Hreply Hok). simpl.
  repeat split.
  - apply In_insert_timer.
  - unfold advance. simpl. apply fire_due_inserted.
  - intros Hts dt Hdt. unfold advance. simpl. rewrite Hts. simpl.
    destruct (Z.leb_spec (clock w + 5000) (clock w + dt)); [lia | reflexivity].
Qed.

Lemma success_resets_after_delay_witness :
  let w' := exec (handleSubmit sampleBlock) (envStatus 200) sampleWorld in
  formState w' = successState
  /\ formState (advance (envStatus 200) 4999 w') = successState
  /\ formState (advance (envStatus 200) 5000 w') = initialFormState.
Proof.
  pose proof (@success_resets_after_delay (envStatus 200) sampleBlock
                sampleForm sampleWorld (mkResponse 200)
                eq_refl eq_refl eq_refl) as (Hs & _ & _ & Hfire & Hwait).
  intros w'. split; [exact Hs|]. split; [|exact Hfire].
  apply (Hwait eq_refl 4999). lia.
Defined.

(** ** The guard and the error path *)

(** C6. A submit on a block whose form reference is not a resolved object
    returns at the guard: it only prevents the default action of the event.
    No request is sent, the submission state is not set, nothing is written
    to the console, the native form and the timers are untouched, and the
    handler returns normally. *)
Theorem unresolved_submit_is_noop env block w :
  (forall f, form block <> RefObj f) ->
  let w' := exec (handleSubmit block) env w in
  requests w' = requests w
  /\ formState w' = formState w
  /\ transitions w' = transitions w
  /\ diagnostics w' = diagnostics w
  /\ controls w' = controls w
  /\ timers w' = timers w
  /\ events w' = events w ++ [EvPreventDefault]
  /\ snd (run (handleSubmit block) env w) = inl tt.
Proof.
  intros H w'. unfold w', exec.
  rewrite (@handleSubmit_unresolved env _ w H). simpl.
  repeat split.
  - unfold requests at 1. simpl. rewrite requests_app. simpl.
    apply app_nil_r.
  - unfold transitions at 1. simpl. rewrite transitions_app. simpl.
    apply app_nil_r.
  - unfold diagnostics at 1. simpl. rewrite diagnostics_app. simpl.
    apply app_nil_r.
Qed.

Lemma unresolved_submit_is_noop_witness :
  let w' := exec (handleSubmit unresolvedBlock) (envStatus 200) sampleWorld in
  (forall f, form unresolvedBlock <> RefObj f)
  /\ requests w' = []
  /\ formState w' = initialFormState
  /\ events w' = [EvPreventDefault].
Proof.
  assert (H : forall f, form unresolvedBlock <> RefObj f)
    by (intros f; discriminate).
  pose proof (@unresolved_submit_is_noop (envStatus 200) unresolvedBlock
                sampleWorld H) as (Hr & Hs & _ & _ & _ & _ & He & _).
  intros w'. split; [exact H|]. split; [exact Hr|]. split; [exact Hs | exact He].
Defined.

(** The submit button of a block that passed the gate is rendered whenever
    the state is not Success. *)
Lemma button_rendered block f st :
  form block = RefObj f ->
  title f = "newsletter-form-1" ->
  success st = false ->
  elements_by_tag "button" (NewsletterBlock block st)
  = [Elem "button" [("type", PStr "submit")]
          [Text (str_or (submitButtonLabel f) "Submit")]].
Proof.
  intros Hform Htitle Hs.
  rewrite (@NewsletterBlock_gated block f st Hform Htitle).
  unfold formUI, resultArea. rewrite Hs. simpl.
  prune_render. rewrite fields_no_button, errorArea_no_button. reflexivity.
Qed.

(** C9. A submit that ends in the Error state leaves every control of the
    native form as it was: [reset()] is not called on that path.  The
    submit button is still rendered, and a second submit sends the same
    body again. *)
Theorem error_keeps_inputs env block f w :
  form block = RefObj f ->
  (exists r, reply env f w = Fulfilled r /\ ok r = false)
  \/ (exists e, reply env f w = Rejected e) ->
  let w' := exec (handleSubmit block) env w in
  formState w' = errorState
  /\ controls w' = controls w
  /\ resets w' = resets w
  /\ (title f = "newsletter-form-1" ->
      elements_by_tag "button" (NewsletterBlock block (formState w')) <> [])
  /\ (forall env2,
        requests (exec (handleSubmit block) env2 w')
        = requests w' ++ [(endpoint, requestInit f (collected w))]).
Proof.
  intros Hform Hfail w'.
  assert (Hw : exists e, w' = failed f e w).
  { unfold w', exec. destruct Hfail as [(r & Hreply & Hok) | (e & Hreply)].
    - exists (Error "Failed to submit form").
      now rewrite (@handleSubmit_not_ok _ _ _ _ _ Hform Hreply Hok).
    - exists e. now rewrite (@handleSubmit_rejected _ _ _ _ _ Hform Hreply). }
  destruct Hw as (e & ->).
  split; [reflexivity|]. split; [reflexivity|]. split; [|split].
  - unfold resets, failed. simpl. rewrite filter_app, length_app. simpl. lia.
  - intros Htitle. change (formState (failed f e w)) with errorState.
    rewrite (@button_rendered block f errorState Hform Htitle eq_refl). discriminate.
  - intros env2. apply (@requests_after_submit env2 block f (failed f e w) Hform).
Qed.

Lemma error_keeps_inputs_witness :
  let w' := exec (handleSubmit sampleBlock) (envStatus 500) sampleWorld in
  controls sampleWorld = [mkControl "email" "a@b.com" ""]
  /\ formState w' = errorState
  /\ controls w' = [mkControl "email" "a@b.com" ""].
Proof.
  pose proof (@error_keeps_inputs (envStatus 500) sampleBlock sampleForm
                sampleWorld eq_refl
                (or_introl (ex_intro _ (mkResponse 500) (conj eq_refl eq_refl))))
    as (Hs & Hc & _).
  intros w'. split; [reflexivity|]. split; [exact Hs | exact Hc].
Defined.

(** ** The render gate *)

(** C4, as stated, fails: a newsletter block whose form reference is not a
    resolved object does not pass the gate, and what it renders is not
    nothing but the wrapper element of the component, without children. *)
Lemma ungated_block_renders_wrapper :
  ~ (exists f, form unresolvedBlock = RefObj f
               /\ title f = "newsletter-form-1")
  /\ NewsletterBlock unresolvedBlock initialFormState = Elem "div" [] []
  /\ elements_by_tag "div" (NewsletterBlock unresolvedBlock initialFormState)
     <> [].
Proof.
  split; [|split].
  - intros (f & H & _). simpl in H. discriminate H.
  - reflexivity.
  - simpl. discriminate.
Qed.

(** C4, amended.  The form UI -- heading, form with its fields, submit
    button or confirmation -- is rendered if and only if the form reference
    of the block is a resolved object whose title is ["newsletter-form-1"];
    it is then the only child of the wrapper of the block.  In every other
    case the block renders its wrapper alone, an element without props and
    without children. *)
Theorem newsletter_gate block st :
  (elements_by_tag "form" (NewsletterBlock block st) <> []
   <-> exists f, form block = RefObj f /\ title f = "newsletter-form-1")
  /\ (forall f, form block = RefObj f -> title f = "newsletter-form-1" ->
        NewsletterBlock block st = Elem "div" [] [formUI block f st])
  /\ (~ (exists f, form block = RefObj f /\ title f = "newsletter-form-1") ->
        NewsletterBlock block st = Elem "div" [] []).
Proof.
  split; [|split].
  - destruct (gate block) eqn:Hg.
    + apply gate_spec in Hg. split; [intros _; exact Hg|].
      intros _. destruct Hg as (f & Hform & Htitle).
      rewrite (@NewsletterBlock_gated block f st Hform Htitle).
      unfold formUI. simpl. prune_render. discriminate.
    + rewrite (NewsletterBlock_ungated _ st Hg). simpl. split.
      * intros H. now elim H.
      * intros H. apply gate_spec in H. congruence.
  - intros f Hform Htitle. now apply NewsletterBlock_gated.
  - intros H. apply NewsletterBlock_ungated.
    destruct (gate block) eqn:Hg; [|reflexivity].
    apply gate_spec in Hg. contradiction.
Qed.

Lemma newsletter_gate_witness :
  NewsletterBlock sampleBlock initialFormState
  = Elem "div" [] [formUI sampleBlock sampleForm initialFormState]
  /\ NewsletterBlock unresolvedBlock initialFormState = Elem "div" [] [].
Proof.
  destruct (newsletter_gate unresolvedBlock initialFormState)
    as (_ & _ & Hout).
  destruct (newsletter_gate sampleBlock initialFormState) as (_ & Hin & _).
  split.
  - exact (Hin sampleForm eq_refl eq_refl).
  - apply Hout. intros (f & H & _). simpl in H. discriminate H.
Defined.

(** C10. In a success state the confirmation message of the form goes to
    the rich-text component as it is: for a form that passed the gate and
    has no confirmation message, the component is applied to the missing
    value, and the result area holds nothing else, no fallback. *)
Theorem missing_confirmation_reaches_rich_text block f st :
  form block = RefObj f ->
  title f = "newsletter-form-1" ->
  confirmationMessage f = None ->
  success st = true ->
  rich_texts (NewsletterBlock block st) = [None]
  /\ resultArea f st
     = Elem "div" [("style", PStyle [("color", "green")])] [RichText None].
Proof.
  intros Hform Htitle Hmsg Hs. split.
  - rewrite <- Hmsg. now apply success_render.
  - unfold resultArea. now rewrite Hs, Hmsg.
Qed.

Lemma missing_confirmation_reaches_rich_text_witness :
  gate sampleBlock = true
  /\ confirmationMessage sampleForm = None
  /\ rich_texts (NewsletterBlock sampleBlock successState) = [None].
Proof.
  split; [reflexivity|]. split; [reflexivity|].
  exact (proj1 (@missing_confirmation_reaches_rich_text sampleBlock sampleForm
                  successState eq_refl eq_refl eq_refl eq_refl)).
Defined.

(** ** The dispatcher *)

Lemma renderBlock_recognized b :
  renderBlock b = None <-> recognized b = false.
Proof.
  unfold renderBlock, recognized.
  destruct (String.eqb (blockType b) "hero"); simpl; [split; discriminate|].
  destruct (String.eqb (blockType b) "content"); simpl;
    [split; discriminate|].
  destruct (String.eqb (blockType b) "newsletter-form"); simpl;
    [split; discriminate | tauto].
Qed.

Lemma renderBlock_block b n : renderBlock b = Some n -> rendered_block n = Some b.
Proof.
  unfold renderBlock.
  destruct (String.eqb (blockType b) "hero");
    [intros H; injection H as <-; reflexivity|].
  destruct (String.eqb (blockType b) "content");
    [intros H; injection H as <-; reflexivity|].
  destruct (String.eqb (blockType b) "newsletter-form");
    [intros H; injection H as <-; reflexivity | discriminate].
Qed.

Lemma kept_in_order bs :
  map rendered_block (kept (map renderBlock bs))
  = map Some (filter recognized bs).
Proof.
  induction bs as [|b r IH]; [reflexivity|]. simpl.
  destruct (renderBlock b) as [n|] eqn:Hb.
  - assert (Hr : recognized b = true).
    { destruct (recognized b) eqn:E; [reflexivity|].
      apply renderBlock_recognized in E. congruence. }
    rewrite Hr. simpl. rewrite IH. now rewrite (renderBlock_block b Hb).
  - apply renderBlock_recognized in Hb. now rewrite Hb.
Qed.

(** C7. The dispatcher maps a layout to one output per block, in the order
    of the blocks: the hero, content and newsletter-form components applied
    to the block, keyed by its id, and [null] for every other block type.
    It is a total function, so no block type makes it fail; the outputs
    React keeps, the children of the page element, are those of the
    recognized blocks, in input order. *)
Theorem dispatcher_one_output_per_block (bs : list Block) :
  length (renderLayout (Some bs)) = length bs
  /\ (forall i b, nth_error bs i = Some b ->
        nth_error (renderLayout (Some bs)) i = Some (renderBlock b))
  /\ (forall b, blockType b = "hero" ->
        renderBlock b = Some (Comp HeroBlockC b (block_id b)))
  /\ (forall b, blockType b = "content" ->
        renderBlock b = Some (Comp ContentBlockC b (block_id b)))
  /\ (forall b, blockType b = "newsletter-form" ->
        renderBlock b = Some (Comp NewsletterBlockC b (block_id b)))
  /\ (forall b, blockType b <> "hero" -> blockType b <> "content" ->
        blockType b <> "newsletter-form" -> renderBlock b = None)
  /\ map rendered_block (kept (renderLayout (Some bs)))
     = map Some (filter recognized bs)
  /\ HomePage (Some (mkPage (Some bs)))
     = Elem "div" []
         [Elem "div" [("className", PStr "page")]
            (kept (map renderBlock bs))].
Proof.
  simpl. repeat split.
  - apply length_map.
  - intros i b H. now apply map_nth_error.
  - intros b H. unfold renderBlock. now rewrite H.
  - intros b H. unfold renderBlock. now rewrite H.
  - intros b H. unfold renderBlock. now rewrite H.
  - intros b H1 H2 H3. unfold renderBlock.
    apply String.eqb_neq in H1, H2, H3. now rewrite H1, H2, H3.
  - apply kept_in_order.
Qed.

Lemma dispatcher_one_output_per_block_witness :
  length (renderLayout (Some sampleLayout)) = 4%nat
  /\ nth_error (renderLayout (Some sampleLayout)) 1 = Some None
  /\ nth_error (renderLayout (Some sampleLayout)) 3
     = Some (Some (Comp NewsletterBlockC sampleBlock (Some "b3"))).
Proof.
  destruct (dispatcher_one_output_per_block sampleLayout)
    as (Hlen & Hnth & _).
  split; [exact Hlen|]. split.
  - exact (Hnth 1%nat _ eq_refl).
  - exact (Hnth 3%nat _ eq_refl).
Defined.

Example dispatcher_sample :
  renderLayout (Some sampleLayout)
  = [Some (Comp HeroBlockC (nth 0 sampleLayout sampleBlock) (Some "b1"));
     None;
     Some (Comp ContentBlockC (nth 2 sampleLayout sampleBlock) (Some "b2"));
     Some (Comp NewsletterBlockC sampleBlock (Some "b3"))].
Proof. reflexivity. Qed.

(** ** Fields without a name *)

Lemma renderField_nameless fld : name fld = None -> renderField fld = [].
Proof. intros H. unfold renderField. now rewrite H. Qed.

Lemma renderFields_named fs :
  renderFields fs = renderFields (option_map (filter has_name) fs).
Proof.
  destruct fs as [l|]; [|reflexivity]. simpl.
  induction l as [|fld r IH]; [reflexivity|]. simpl.
  unfold has_name at 1. destruct (name fld) as [nm|] eqn:Hn; simpl.
  - now rewrite IH.
  - now rewrite (renderField_nameless _ Hn).
Qed.

Lemma field_inputs fs :
  map name_attr (flat_map (elements_by_tag "input") (renderFields fs))
  = field_names fs.
Proof.
  destruct fs as [l|]; [|reflexivity]. simpl.
  induction l as [|fld r IH]; [reflexivity|]. simpl.
  rewrite flat_map_app, map_app, IH. f_equal.
  unfold renderField.
  destruct (name fld); [destruct (label fld)|]; reflexivity.
Qed.

Lemma block_inputs block f st :
  form block = RefObj f ->
  title f = "newsletter-form-1" ->
  elements_by_tag "input" (NewsletterBlock block st)
  = flat_map (elements_by_tag "input") (renderFields (fields f)).
Proof.
  intros Hform Htitle.
  rewrite (@NewsletterBlock_gated block f st Hform Htitle).
  unfold formUI. simpl. prune_render.
  assert (He : flat_map (elements_by_tag "input") (errorArea st) = []).
  { unfold errorArea. destruct (error st) as [msg|]; [|reflexivity].
    destruct (String.eqb msg ""); reflexivity. }
  assert (Hr : elements_by_tag "input" (resultArea f st) = []).
  { unfold resultArea. destruct (success st); reflexivity. }
  rewrite He, Hr. now rewrite !app_nil_r.
Qed.

Lemma mount_names n :
  map control_name (mount n) = map name_attr (elements_by_tag "input" n).
Proof. unfold mount. rewrite map_map. reflexivity. Qed.

Lemma type_values_names vals cs :
  map control_name (type_values vals cs) = map control_name cs.
Proof.
  revert cs. induction vals as [|v vs IH]; intros [|c r]; simpl;
    try reflexivity.
  now rewrite IH.
Qed.

Lemma formData_names cs k :
  In k (map fst (formDataEntries cs)) -> In k (map control_name cs).
Proof.
  unfold formDataEntries. induction cs as [|c r IH]; simpl; [tauto|].
  rewrite map_app, in_app_iff.
  destruct (String.eqb (control_name c) ""); simpl; tauto.
Qed.

(** C8. A field entry without a [name] renders to nothing, so the rendered
    form is that of the named fields alone: its inputs are, in order, one
    per named field.  The entries of the request body come from those
    inputs, so each of them carries the name of a named field and the
    nameless entry contributes none. *)
Theorem nameless_field_is_excluded env block f st vals w :
  form block = RefObj f ->
  title f = "newsletter-form-1" ->
  controls w = type_values vals (mount (NewsletterBlock block st)) ->
  (forall fld, name fld = None -> renderField fld = [])
  /\ renderFields (fields f)
     = renderFields (option_map (filter has_name) (fields f))
  /\ map name_attr (elements_by_tag "input" (NewsletterBlock block st))
     = field_names (fields f)
  /\ requests (exec (handleSubmit block) env w)
     = requests w ++ [(endpoint, requestInit f (collected w))]
  /\ (forall k v,
        In (JObj [("field", JStr k); ("value", JStr v)])
           (submissionData (collected w)) ->
        In k (field_names (fields f))).
Proof.
  intros Hform Htitle Hw.
  assert (Hin : map name_attr (elements_by_tag "input" (NewsletterBlock block st))
                = field_names (fields f)).
  { rewrite (@block_inputs block f st Hform Htitle). apply field_inputs. }
  split; [exact renderField_nameless|].
  split; [apply renderFields_named|].
  split; [exact Hin|].
  split; [apply (@requests_after_submit env block f w Hform)|].
  intros k v H. unfold submissionData in H.
  apply in_map_iff in H as ([k' v'] & E & H). simpl in E.
  injection E as <- <-.
  apply In_entries_fromEntries, formData_names in H.
  now rewrite Hw, type_values_names, mount_names, Hin in H.
Qed.

Lemma nameless_field_is_excluded_witness :
  fields sampleForm = Some [emailField; messageField]
  /\ name messageField = None
  /\ map name_attr
         (elements_by_tag "input" (NewsletterBlock sampleBlock initialFormState))
     = ["email"]
  /\ requests (exec (handleSubmit sampleBlock) (envStatus 200) sampleWorld)
     = [(endpoint,
         mkInit "POST"
           (JObj [("form", JNum 42);
                  ("submissionData",
                   JArr [JObj [("field", JStr "email");
                               ("value", JStr "a@b.com")]])])
           [("Content-Type", "application/json")])].
Proof.
  pose proof (@nameless_field_is_excluded (envStatus 200) sampleBlock
                sampleForm initialFormState ["a@b.com"] sampleWorld
                eq_refl eq_refl eq_refl) as (_ & _ & Hin & Hreq & _).
  split; [reflexivity|]. split; [reflexivity|].
  split; [exact Hin | exact Hreq].
Defined.

(* ================================================================== *)
(** * Further properties of the code *)

(** ** The handler as a whole *)

Lemma reply_with_formState env f s w :
  reply env f (with_formState s w) = reply env f w.
Proof. reflexivity. Qed.

(** The three ways a run can go. *)
Lemma handleSubmit_cases env block w :
  ((forall f, form block <> RefObj f)
   /\ exec (handleSubmit block) env w = log EvPreventDefault (with_prevented w))
  \/ (exists f r, form block = RefObj f /\ reply env f w = Fulfilled r
                  /\ ok r = true
                  /\ exec (handleSubmit block) env w = accepted f w)
  \/ (exists f e, form block = RefObj f
                  /\ (reply env f w = Rejected e
                      \/ exists r, reply env f w = Fulfilled r
                                   /\ ok r = false
                                   /\ e = Error "Failed to submit form")
                  /\ exec (handleSubmit block) env w = failed f e w).
Proof.
  unfold exec. destruct (form block) as [| |i|f] eqn:Hform.
  1-3: left; split; [congruence|];
       rewrite (@handleSubmit_unresolved env block w); [reflexivity|congruence].
  right. destruct (reply env f w) as [r|e] eqn:Hreply.
  - destruct (ok r) eqn:Hok.
    + left. exists f, r.
      now rewrite (@handleSubmit_accepted _ _ _ _ _ Hform Hreply Hok).
    + right. exists f, (Error "Failed to submit form").
      rewrite (@handleSubmit_not_ok _ _ _ _ _ Hform Hreply Hok).
      split; [reflexivity|]. split; [|reflexivity]. right. now exists r.
  - right. exists f, e.
    rewrite (@handleSubmit_rejected _ _ _ _ _ Hform Hreply).
    split; [reflexivity|]. split; [now left | reflexivity].
Qed.

(** X1. Whatever the block, the endpoint and the world, a run of the
    handler returns normally -- every failure of the request ends in the
    [catch] clause, nothing is thrown to the caller -- and the default
    action of the submit event has been prevented. *)
Theorem handleSubmit_never_throws env block w :
  snd (run (handleSubmit block) env w) = inl tt
  /\ defaultPrevented (exec (handleSubmit block) env w) = true.
Proof.
  split; [apply handleSubmit_returns|].
  destruct (handleSubmit_cases env block w)
    as [(_ & ->) | [(f & r & _ & _ & _ & ->) | (f & e & _ & _ & ->)]];
    reflexivity.
Qed.

(** X2. The effects of a submit on a resolved form, in order: the default
    action is prevented, the state is set to Loading, the collected mapping
    is written to the console, the request is sent; then, for an ok
    response, the state is set to Success, the form is reset and the timer
    is set, and otherwise the caught value is written to the console and
    the state is set to Error.  Nothing else happens. *)
Theorem submit_effect_order env block f w :
  form block = RefObj f ->
  events (exec (handleSubmit block) env w)
  = events w
    ++ [EvPreventDefault; EvSetFormState loadingState;
        EvConsoleLog (collected w);
        EvFetch endpoint (requestInit f (collected w))]
    ++ match reply env f w with
       | Fulfilled r =>
           if ok r
           then [EvSetFormState successState; EvFormReset;
                 EvSetTimeout (CbSetFormState initialFormState) 5000]
           else [EvConsoleError (Error "Failed to submit form");
                 EvSetFormState errorState]
       | Rejected e => [EvConsoleError e; EvSetFormState errorState]
       end.
Proof.
  intros Hform. unfold exec.
  destruct (reply env f w) as [r|e] eqn:Hreply.
  - destruct (ok r) eqn:Hok.
    + now rewrite (@handleSubmit_accepted _ _ _ _ _ Hform Hreply Hok).
    + now rewrite (@handleSubmit_not_ok _ _ _ _ _ Hform Hreply Hok).
  - now rewrite (@handleSubmit_rejected _ _ _ _ _ Hform Hreply).
Qed.

Lemma submit_effect_order_witness :
  events (exec (handleSubmit sampleBlock) envOffline sampleWorld)
  = [EvPreventDefault; EvSetFormState loadingState;
     EvConsoleLog [("email", "a@b.com")];
     EvFetch endpoint (requestInit sampleForm [("email", "a@b.com")]);
     EvConsoleError (mkError "TypeError" "Failed to fetch");
     EvSetFormState errorState].
Proof.
  exact (@submit_effect_order envOffline sampleBlock sampleForm sampleWorld
           eq_refl).
Defined.

(** X3. A submit on a resolved form ends in the Success state exactly when
    the request was answered with a status from 200 to 299; with any other
    status, and when the request failed, it ends in the Error state. *)
Theorem success_iff_status_ok env block f w :
  form block = RefObj f ->
  let w' := exec (handleSubmit block) env w in
  (formState w' = successState
   <-> exists r, reply env f w = Fulfilled r /\ 200 <= status r <= 299)
  /\ (formState w' = errorState
      <-> ~ exists r, reply env f w = Fulfilled r /\ 200 <= status r <= 299).
Proof.
  intros Hform w'. unfold w', exec.
  assert (Hok : forall r, ok r = true <-> 200 <= status r <= 299).
  { intros r. unfold ok. rewrite andb_true_iff, !Z.leb_le. tauto. }
  assert (Hse : successState <> errorState) by (intros E; discriminate E).
  destruct (reply env f w) as [r|e] eqn:Hreply.
  - destruct (ok r) eqn:Hr.
    + rewrite (@handleSubmit_accepted _ _ _ _ _ Hform Hreply Hr).
      change (formState (fst (accepted f w, @inl unit JsError tt)))
        with successState.
      apply Hok in Hr.
      assert (Hy : exists r0, Fulfilled r = Fulfilled r0
                              /\ 200 <= status r0 <= 299) by now exists r.
      split; split; intros H; try reflexivity; try exact Hy; tauto.
    + rewrite (@handleSubmit_not_ok _ _ _ _ _ Hform Hreply Hr).
      change (formState (fst (failed f (Error "Failed to submit form") w,
                              @inl unit JsError tt)))
        with errorState.
      assert (Hn : ~ exists r0, Fulfilled r = Fulfilled r0
                                /\ 200 <= status r0 <= 299).
      { intros (r0 & E & H). injection E as <-. apply Hok in H. congruence. }
      split; split; intros H; try reflexivity; try exact Hn;
        try contradiction; symmetry in H; contradiction.
  - rewrite (@handleSubmit_rejected _ _ _ _ _ Hform Hreply).
    change (formState (fst (failed f e w, @inl unit JsError tt)))
      with errorState.
    assert (Hn : ~ exists r0, Rejected e = Fulfilled r0
                              /\ 200 <= status r0 <= 299).
    { intros (r0 & E & _). discriminate E. }
    split; split; intros H; try reflexivity; try exact Hn;
      try contradiction; symmetry in H; contradiction.
Qed.

Lemma success_iff_status_ok_witness :
  formState (exec (handleSubmit sampleBlock) (envStatus 299) sampleWorld)
  = successState
  /\ formState (exec (handleSubmit sampleBlock) (envStatus 300) sampleWorld)
     = errorState
  /\ formState (exec (handleSubmit sampleBlock) (envStatus 199) sampleWorld)
     = errorState.
Proof.
  destruct (@success_iff_status_ok (envStatus 299) sampleBlock sampleForm
              sampleWorld eq_refl) as [[_ H299] _].
  destruct (@success_iff_status_ok (envStatus 300) sampleBlock sampleForm
              sampleWorld eq_refl) as [_ [_ H300]].
  destruct (@success_iff_status_ok (envStatus 199) sampleBlock sampleForm
              sampleWorld eq_refl) as [_ [_ H199]].
  split; [|split].
  - apply H299. exists (mkResponse 299). split; [reflexivity | simpl; lia].
  - apply H300. intros (r & E & H). injection E as <-. simpl in H. lia.
  - apply H199. intros (r & E & H). injection E as <-. simpl in H. lia.
Defined.

(** X4. The handler never reads the submission state: on a resolved form a
    submit started from any state -- Loading and Success included -- does
    exactly what it does from Idle, and in particular sends its request. *)
Theorem submit_ignores_current_state env block f s w :
  form block = RefObj f ->
  exec (handleSubmit block) env (with_formState s w)
  = exec (handleSubmit block) env w
  /\ requests (exec (handleSubmit block) env (with_formState s w))
     = requests w ++ [(endpoint, requestInit f (collected w))].
Proof.
  intros Hform. split.
  - unfold exec.
    destruct (reply env f w) as [r|e] eqn:Hreply.
    + destruct (ok r) eqn:Hok.
      * rewrite (@handleSubmit_accepted env block f (with_formState s w) r
                   Hform Hreply Hok).
        now rewrite (@handleSubmit_accepted _ _ _ _ _ Hform Hreply Hok).
      * rewrite (@handleSubmit_not_ok env block f (with_formState s w) r
                   Hform Hreply Hok).
        now rewrite (@handleSubmit_not_ok _ _ _ _ _ Hform Hreply Hok).
    + rewrite (@handleSubmit_rejected env block f (with_formState s w) e
                 Hform Hreply).
      now rewrite (@handleSubmit_rejected _ _ _ _ _ Hform Hreply).
  - apply (@requests_after_submit env block f (with_formState s w) Hform).
Qed.

Lemma submit_ignores_current_state_witness :
  requests (exec (handleSubmit sampleBlock) (envStatus 200)
                 (with_formState loadingState sampleWorld))
  = [(endpoint, requestInit sampleForm [("email", "a@b.com")])].
Proof.
  exact (proj2 (@submit_ignores_current_state (envStatus 200) sampleBlock
                  sampleForm loadingState sampleWorld eq_refl)).
Defined.

(** ** The reset timer *)


Lemma advance_eq env dt w :
  advance env dt w
  = fire_due env (clock w + dt) (timers w) (with_clock (clock w + dt) w).
Proof. reflexivity. Qed.

Lemma fire_due_first env now due cb r w :
  due <= now ->
  fire_due env now ((due, cb) :: r) w
  = fire_due env now r (exec (callback cb) env (with_timers r w)).
Proof.
  intros H. simpl. destruct (Z.leb_spec due now); [reflexivity | lia].
Qed.




(** X6. With no other timer pending, the reset after a success happens
    once: for every wait of five seconds or more the state is Idle, no
    timer is left, and the only state change since the success is that
    reset. *)
Theorem reset_fires_once env block f w r dt :
  form block = RefObj f ->
  timers w = [] ->
  reply env f w = Fulfilled r ->
  ok r = true ->
  5000 <= dt ->
  let w' := advance env dt (exec (handleSubmit block) env w) in
  formState w' = initialFormState
  /\ timers w' = []
  /\ transitions w'
     = transitions w ++ [loadingState; successState; initialFormState]
  /\ forall dt', 0 <= dt' -> advance env dt' w' = with_clock (clock w' + dt') w'.
Proof.
  intros Hform Hts Hreply Hok Hdt w'. unfold w', exec.
  rewrite (@handleSubmit_accepted _ _ _ _ _ Hform Hreply Hok). cbn [fst].
  set (cb := CbSetFormState initialFormState).
  assert (Hta : timers (accepted f w) = [(clock w + 5000, cb)]).
  { simpl. now rewrite Hts. }
  assert (Hadv : advance env dt (accepted f w)
                 = exec (callback cb) env
                        (with_timers [] (with_clock (clock w + dt)
                                                    (accepted f w)))).
  { rewrite advance_eq, Hta. change (clock (accepted f w)) with (clock w).
    rewrite fire_due_first by lia. reflexivity. }
  rewrite Hadv.
  split; [reflexivity|]. split; [reflexivity|]. split.
  - unfold transitions at 1. cbn. rewrite <- app_assoc.
    rewrite transitions_app. reflexivity.
  - intros dt' _. rewrite advance_eq. reflexivity.
Qed.

Lemma reset_fires_once_witness :
  let w' := advance (envStatus 200) 60000
                    (exec (handleSubmit sampleBlock) (envStatus 200)
                          sampleWorld) in
  formState w' = initialFormState
  /\ timers w' = []
  /\ transitions w' = [loadingState; successState; initialFormState].
Proof.
  pose proof (@reset_fires_once (envStatus 200) sampleBlock sampleForm
                sampleWorld (mkResponse 200) 60000
                eq_refl eq_refl eq_refl eq_refl
                ltac:(lia)) as (Hs & Ht & Htr & _).
  intros w'. split; [exact Hs|]. split; [exact Ht | exact Htr].
Defined.

(** ** The submitted pairs *)

Section PayloadFacts.
Variable V : Type.
Implicit Types (o : JsObject.t V) (k : string) (v : V).

Lemma get_In o k v :
  NoDup (JsObject.keys o) -> In (k, v) o -> JsObject.get k o = Some v.
Proof.
  unfold JsObject.keys. induction o as [|[k' v'] r IH]; simpl; [tauto|].
  intros Hnd [E|Hin]; inversion_clear Hnd as [|? ? Hk Hr].
  - injection E as -> ->. now rewrite String.eqb_refl.
  - destruct (String.eqb_spec k k') as [->|_]; [|now apply IH].
    elim Hk. now apply (in_map fst) in Hin.
Qed.

Lemma first_occurrences_complete k (seen ks : list string) :
  In k ks -> In k seen \/ In k (first_occurrences seen ks).
Proof.
  revert seen. induction ks as [|a r IH]; intros seen; simpl; [tauto|].
  intros [->|Hin].
  - destruct (existsb (String.eqb k) seen) eqn:E.
    + left. now apply existsb_eqb_In.
    + right. now left.
  - destruct (existsb (String.eqb a) seen) eqn:E.
    + destruct (IH seen Hin); auto.
    + destruct (IH (seen ++ [a]) Hin) as [H|H]; [|right; now right].
      apply in_app_iff in H as [H|[->|[]]]; [now left | right; now left].
Qed.

Lemma first_occurrences_length (seen ks : list string) :
  (length (first_occurrences seen ks) <= length ks)%nat.
Proof.
  revert seen. induction ks as [|a r IH]; intros seen; simpl; [lia|].
  destruct (existsb (String.eqb a) seen); simpl.
  - specialize (IH seen). lia.
  - specialize (IH (seen ++ [a])). lia.
Qed.

Lemma In_keys_fromEntries k (es : list (string * V)) :
  In k (JsObject.keys (JsObject.fromEntries es)) <-> In k (map fst es).
Proof.
  rewrite keys_fromEntries. split; [apply In_first_occurrences|].
  intros H. destruct (first_occurrences_complete k [] _ H) as [[]|H']; exact H'.
Qed.

Lemma insert_index_HdRel i (p : string * V) l a :
  by_index a (i, p) -> HdRel (@by_index V) a l ->
  HdRel (@by_index V) a (JsObject.insert_index i p l).
Proof.
  intros Ha Hl. destruct l as [|[j q] r]; simpl; [now constructor|].
  destruct (i <=? j)%N; constructor; [assumption|].
  now inversion Hl.
Qed.

Lemma insert_index_sorted i (p : string * V) l :
  Sorted (@by_index V) l -> Sorted (@by_index V) (JsObject.insert_index i p l).
Proof.
  induction l as [|[j q] r IH]; simpl; intros Hs.
  - constructor; constructor.
  - destruct (N.leb_spec i j).
    + constructor; [assumption|]. constructor. assumption.
    + inversion_clear Hs as [|? ? Hr Hhd]. constructor; [now apply IH|].
      apply insert_index_HdRel; [|assumption]. unfold by_index. simpl. lia.
Qed.

Lemma index_props_sorted o : Sorted (@by_index V) (JsObject.index_props o).
Proof.
  induction o as [|p r IH]; simpl; [constructor|].
  destruct (JsObject.array_index (fst p)); [|assumption].
  now apply insert_index_sorted.
Qed.

Lemma index_props_index o :
  Forall (fun ip => JsObject.array_index (fst (snd ip)) = Some (fst ip))
         (JsObject.index_props o).
Proof.
  induction o as [|p r IH]; simpl; [constructor|].
  destruct (JsObject.array_index (fst p)) as [i|] eqn:E; [|assumption].
  apply (Permutation_Forall (Permutation_sym (insert_index_perm i p _))).
  now constructor.
Qed.

Lemma sorted_by_value (l : list (N * (string * V))) :
  Forall (fun ip => JsObject.array_index (fst (snd ip)) = Some (fst ip)) l ->
  Sorted (@by_index V) l ->
  Sorted (fun p q => (index_value (fst p) <= index_value (fst q))%N)
         (map snd l).
Proof.
  induction l as [|a r IH]; simpl; intros Hf Hs; [constructor|].
  inversion_clear Hf as [|? ? Ha Hr]. inversion_clear Hs as [|? ? Hsr Hhd].
  constructor; [now apply IH|].
  destruct r as [|b r']; simpl; constructor.
  inversion_clear Hhd as [|? ? Hab]. inversion_clear Hr as [|? ? Hb _].
  unfold index_value. now rewrite Ha, Hb.
Qed.

Lemma keys_named_props o :
  map fst (JsObject.named_props o)
  = filter (fun k => negb (is_index_name k)) (JsObject.keys o).
Proof.
  unfold JsObject.named_props, JsObject.keys.
  induction o as [|p r IH]; simpl; [reflexivity|].
  unfold JsObject.is_named at 1, is_index_name at 1.
  destruct (JsObject.array_index (fst p)); simpl; now rewrite IH.
Qed.

End PayloadFacts.

Lemma last_value_In k v (es : list (string * string)) :
  last_value k es = Some v -> In (k, v) es.
Proof.
  induction es as [|[k' v'] r IH]; simpl; [discriminate|].
  destruct (last_value k r) as [x|].
  - intros E. right. apply IH. exact E.
  - destruct (String.eqb_spec k k') as [->|_]; [|discriminate].
    intros E. injection E as ->. now left.
Qed.

(** A pair listed by [Object.entries(Object.fromEntries(es))] is one of
    the entries. *)
Lemma In_entries_source k v (es : list (string * string)) :
  In (k, v) (JsObject.entries (JsObject.fromEntries es)) -> In (k, v) es.
Proof.
  intros H. apply (Permutation_in _ (entries_perm _)) in H.
  apply get_In in H; [|apply NoDup_keys_fromEntries].
  rewrite get_fromEntries in H. now apply last_value_In.
Qed.

Lemma formData_entry cs k v :
  In (k, v) (formDataEntries cs)
  <-> exists c, In c cs /\ control_name c = k /\ control_value c = v
                /\ k <> "".
Proof.
  unfold formDataEntries. rewrite in_flat_map. split.
  - intros (c & Hc & H).
    destruct (String.eqb_spec (control_name c) "") as [E|E]; [contradiction|].
    destruct H as [H|[]]. injection H as <- <-. now exists c.
  - intros (c & Hc & <- & <- & Hk). exists c. split; [assumption|].
    destruct (String.eqb_spec (control_name c) ""); [contradiction|now left].
Qed.

Lemma formData_length cs :
  (length (formDataEntries cs) <= length cs)%nat.
Proof.
  unfold formDataEntries. induction cs as [|c r IH]; simpl; [lia|].
  rewrite length_app. destruct (String.eqb (control_name c) ""); simpl; lia.
Qed.

(** X7. The names sent are exactly the non-empty names of the controls of
    the form: a control whose name is empty is left out, every other name
    is sent, and each pair sent carries the name and the current value of
    one of the controls.  There is at most one pair per control. *)
Theorem payload_fields_are_control_names w :
  (forall k, In k (map fst (JsObject.entries (collected w)))
             <-> k <> "" /\ In k (map control_name (controls w)))
  /\ (forall k v, In (k, v) (JsObject.entries (collected w)) ->
        exists c, In c (controls w) /\ control_name c = k
                  /\ control_value c = v)
  /\ (length (submissionData (collected w)) <= length (controls w))%nat.
Proof.
  split; [|split].
  - intros k.
    assert (Hk : In k (map fst (JsObject.entries (collected w)))
                 <-> In k (map fst (formDataEntries (controls w)))).
    { split; intros H.
      - apply (In_keys_fromEntries k (formDataEntries (controls w))).
        unfold JsObject.keys. revert H.
        apply Permutation_in, Permutation_map, entries_perm.
      - apply (In_keys_fromEntries k (formDataEntries (controls w))) in H.
        unfold JsObject.keys in H. revert H.
        apply Permutation_in, Permutation_map, Permutation_sym, entries_perm. }
    rewrite Hk, !in_map_iff. split.
    + intros ([k' v] & <- & H). apply formData_entry in H
        as (c & Hc & Hn & _ & Hne). simpl. split; [assumption|].
      now exists c.
    + intros (Hne & c & <- & Hc). exists (control_name c, control_value c).
      split; [reflexivity|]. apply formData_entry. now exists c.
  - intros k v H. apply In_entries_source, formData_entry in H
      as (c & Hc & Hn & Hv & _). now exists c.
  - unfold submissionData. rewrite length_map.
    rewrite (Permutation_length (entries_perm (collected w))).
    assert (E : length (collected w) = length (JsObject.keys (collected w))).
    { unfold JsObject.keys. now rewrite length_map. }
    rewrite E. unfold collected. rewrite keys_fromEntries.
    etransitivity; [apply first_occurrences_length|].
    rewrite length_map. apply formData_length.
Qed.

(** X8. After a successful submit the form has been reset, so a second
    submit made without typing sends every name with the default value of
    its control -- the empty string, for the inputs this component
    renders. *)
Theorem resubmit_after_success_sends_defaults env env2 block f w r :
  form block = RefObj f ->
  reply env f w = Fulfilled r ->
  ok r = true ->
  let w' := exec (handleSubmit block) env w in
  requests (exec (handleSubmit block) env2 w')
  = requests w' ++ [(endpoint, requestInit f (collected w'))]
  /\ forall k v, In (k, v) (JsObject.entries (collected w')) ->
       exists c, In c (controls w) /\ control_name c = k
                 /\ v = control_default c.
Proof.
  intros Hform Hreply Hok w'. split.
  - apply (@requests_after_submit env2 block f w' Hform).
  - intros k v H. apply In_entries_source, formData_entry in H
      as (c' & Hc' & Hn & Hv & _).
    unfold w', exec in Hc'.
    rewrite (@handleSubmit_accepted _ _ _ _ _ Hform Hreply Hok) in Hc'.
    simpl in Hc'. unfold resetControls in Hc'.
    apply in_map_iff in Hc' as (c & <- & Hc). simpl in *.
    exists c. repeat split; [assumption | assumption | now symmetry].
Qed.

Lemma resubmit_after_success_sends_defaults_witness :
  let w' := exec (handleSubmit sampleBlock) (envStatus 200) sampleWorld in
  requests (exec (handleSubmit sampleBlock) (envStatus 200) w')
  = [(endpoint, requestInit sampleForm [("email", "a@b.com")]);
     (endpoint, requestInit sampleForm [("email", "")])].
Proof.
  exact (proj1 (@resubmit_after_success_sends_defaults (envStatus 200)
                  (envStatus 200) sampleBlock sampleForm sampleWorld
                  (mkResponse 200) eq_refl eq_refl eq_refl)).
Defined.

(** X9. The order of the pairs sent: first the names that are array
    indices -- canonical decimal numbers below 2^32 - 1 -- by ascending
    numeric value, then every other name in the order of its first
    occurrence in the form. *)
Theorem payload_index_names_first w :
  let names := map fst (formDataEntries (controls w)) in
  exists idx named,
    JsObject.entries (collected w) = idx ++ named
    /\ Forall (fun p => is_index_name (fst p) = true) idx
    /\ Sorted (fun p q => (index_value (fst p) <= index_value (fst q))%N) idx
    /\ map fst named
       = filter (fun k => negb (is_index_name k)) (first_occurrences [] names).
Proof.
  intros names.
  exists (map snd (JsObject.index_props (collected w))),
         (JsObject.named_props (collected w)).
  split; [reflexivity|]. split; [|split].
  - apply Forall_forall. intros p Hp.
    apply in_map_iff in Hp as (ip & <- & Hip).
    pose proof (index_props_index (collected w)) as Hall.
    rewrite Forall_forall in Hall. specialize (Hall ip Hip).
    unfold is_index_name. now rewrite Hall.
  - apply sorted_by_value; [apply index_props_index | apply index_props_sorted].
  - rewrite keys_named_props. unfold collected. now rewrite keys_fromEntries.
Qed.

Lemma names_not_indices cs :
  Forall (fun c => is_index_name (control_name c) = false) cs ->
  forallb (@JsObject.is_named string)
          (JsObject.fromEntries (formDataEntries cs)) = true.
Proof.
  intros Hcs. apply forallb_forall. intros [k v] Hp.
  assert (Hk : In k (map fst (formDataEntries cs))).
  { apply In_keys_fromEntries. unfold JsObject.keys.
    now apply (in_map fst) in Hp. }
  apply in_map_iff in Hk as ([k' v'] & E & Hin). simpl in E. subst k'.
  apply formData_entry in Hin as (c & Hc & <- & _).
  rewrite Forall_forall in Hcs. specialize (Hcs c Hc).
  unfold JsObject.is_named, is_index_name in *. simpl.
  now destruct (JsObject.array_index (control_name c)).
Qed.

(** X10. When no control of the form is named by an array index, the
    pairs are sent in form order: one pair per name, at the place of the
    first control with that name. *)
Theorem payload_in_form_order w :
  Forall (fun c => is_index_name (control_name c) = false) (controls w) ->
  map fst (JsObject.entries (collected w))
  = first_occurrences [] (map fst (formDataEntries (controls w))).
Proof.
  intros H. unfold collected.
  rewrite (entries_named _ (names_not_indices H)).
  apply keys_fromEntries.
Qed.

Lemma payload_in_form_order_witness :
  let w := with_controls [mkControl "email" "a" ""; mkControl "name" "b" "";
                          mkControl "" "c" ""; mkControl "email" "d" ""]
                         sampleWorld in
  JsObject.entries (collected w) = [("email", "d"); ("name", "b")]
  /\ map fst (JsObject.entries (collected w)) = ["email"; "name"].
Proof.
  intros w. split; [reflexivity|].
  apply (@payload_in_form_order w).
  repeat constructor.
Defined.

(** ** What the newsletter block renders *)

Lemma fields_no_tag t fs :
  String.eqb "div" t = false -> String.eqb "label" t = false ->
  String.eqb "input" t = false ->
  flat_map (elements_by_tag t) (renderFields fs) = [].
Proof.
  intros Hd Hl Hi. destruct fs as [l|]; [|reflexivity]. simpl.
  induction l as [|fld r IH]; [reflexivity|]. simpl.
  rewrite flat_map_app, IH, app_nil_r.
  unfold renderField. destruct (name fld); [|reflexivity].
  cbn [flat_map elements_by_tag app].
  rewrite Hd, Hl, Hi, text_child_no_element. reflexivity.
Qed.

Lemma errorArea_no_tag t st :
  String.eqb "p" t = false ->
  flat_map (elements_by_tag t) (errorArea st) = [].
Proof.
  intros Hp. unfold errorArea. destruct (error st) as [msg|]; [|reflexivity].
  destruct (String.eqb msg ""); [reflexivity|].
  cbn [flat_map elements_by_tag app]. now rewrite Hp.
Qed.

Lemma resultArea_no_tag t f st :
  String.eqb "div" t = false -> String.eqb "button" t = false ->
  elements_by_tag t (resultArea f st) = [].
Proof.
  intros Hd Hb. unfold resultArea.
  destruct (success st); cbn [flat_map elements_by_tag app].
  - now rewrite Hd.
  - now rewrite Hb.
Qed.

Lemma gated_inv block :
  gate block = true ->
  exists f, form block = RefObj f /\ title f = "newsletter-form-1".
Proof. apply gate_spec. Qed.

(** The paragraphs of a block that passed the gate are those of its error
    area. *)
Lemma error_paragraphs block f st :
  form block = RefObj f ->
  title f = "newsletter-form-1" ->
  elements_by_tag "p" (NewsletterBlock block st) = errorArea st.
Proof.
  intros Hform Htitle.
  rewrite (@NewsletterBlock_gated block f st Hform Htitle).
  unfold formUI. simpl. prune_render.
  rewrite (@fields_no_tag "p" (fields f) eq_refl eq_refl eq_refl).
  rewrite (@resultArea_no_tag "p" f st eq_refl eq_refl).
  rewrite !app_nil_r. simpl.
  unfold errorArea. destruct (error st) as [msg|]; [|reflexivity].
  destruct (String.eqb msg ""); reflexivity.
Qed.

(** X11. The [loading] flag is never rendered: what the block shows
    depends on the error message and the success flag alone, so the
    Loading state looks exactly like Idle. *)
Theorem render_ignores_loading block st l :
  NewsletterBlock block st
  = NewsletterBlock block (mkFormState l (error st) (success st))
  /\ NewsletterBlock block loadingState
     = NewsletterBlock block initialFormState.
Proof.
  split; [|reflexivity].
  unfold NewsletterBlock, formUI, errorArea, resultArea.
  destruct st; reflexivity.
Qed.

(** X12. Whenever the state is not Success, a block that passed the gate
    shows exactly one submit button and no rich text.  The text of the
    button is the label of the form, or ["Submit"] when the label is
    missing or empty; it is never empty. *)
Theorem button_label_never_empty block f st :
  form block = RefObj f ->
  title f = "newsletter-form-1" ->
  success st = false ->
  exists txt,
    elements_by_tag "button" (NewsletterBlock block st)
    = [Elem "button" [("type", PStr "submit")] [Text txt]]
    /\ txt <> ""
    /\ (forall l, submitButtonLabel f = Some l -> l <> "" -> txt = l)
    /\ (submitButtonLabel f = None \/ submitButtonLabel f = Some "" ->
        txt = "Submit")
    /\ rich_texts (NewsletterBlock block st) = [].
Proof.
  intros Hform Htitle Hs.
  exists (str_or (submitButtonLabel f) "Submit").
  split; [now apply button_rendered|]. split; [|split; [|split]].
  - unfold str_or. destruct (submitButtonLabel f) as [l|]; [|discriminate].
    destruct (String.eqb_spec l ""); [discriminate | assumption].
  - intros l Hl Hne. unfold str_or. rewrite Hl.
    destruct (String.eqb_spec l ""); [contradiction | reflexivity].
  - intros [H|H]; unfold str_or; rewrite H; reflexivity.
  - rewrite (@NewsletterBlock_gated block f st Hform Htitle).
    unfold formUI, resultArea. rewrite Hs. simpl. prune_render.
    now rewrite fields_no_rich_text, errorArea_no_rich_text.
Qed.

Lemma button_label_never_empty_witness :
  elements_by_tag "button" (NewsletterBlock sampleBlock initialFormState)
  = [Elem "button" [("type", PStr "submit")] [Text "Join"]].
Proof.
  destruct (@button_label_never_empty sampleBlock sampleForm initialFormState
              eq_refl eq_refl eq_refl) as (txt & Hb & _ & Hl & _).
  rewrite Hb. rewrite (Hl "Join" eq_refl); [reflexivity | discriminate].
Defined.

(** X13. What the user sees after a submit on a rendered form: after an
    accepted one no error paragraph and no button; after a failed one
    exactly one error paragraph, reading ["Failed to submit form"], next to
    the submit button, and no rich text. *)
Theorem submit_feedback env block f w :
  form block = RefObj f ->
  title f = "newsletter-form-1" ->
  let st := formState (exec (handleSubmit block) env w) in
  (st = successState ->
     elements_by_tag "p" (NewsletterBlock block st) = []
     /\ elements_by_tag "button" (NewsletterBlock block st) = [])
  /\ (st = errorState ->
     elements_by_tag "p" (NewsletterBlock block st)
     = [Elem "p" [("style", PStyle [("color", "red")])]
             [Text "Failed to submit form"]]
     /\ elements_by_tag "button" (NewsletterBlock block st)
        = [Elem "button" [("type", PStr "submit")]
                [Text (str_or (submitButtonLabel f) "Submit")]]
     /\ rich_texts (NewsletterBlock block st) = [])
  /\ (st = successState \/ st = errorState).
Proof.
  intros Hform Htitle st. split; [|split].
  - intros ->. split.
    + now rewrite (@error_paragraphs block f successState Hform Htitle).
    + now apply (@success_render block f successState Hform Htitle).
  - intros ->. split; [|split].
    + now rewrite (@error_paragraphs block f errorState Hform Htitle).
    + now apply button_rendered.
    + rewrite (@NewsletterBlock_gated block f errorState Hform Htitle).
      unfold formUI. simpl. prune_render.
      now rewrite fields_no_rich_text.
  - unfold st.
    destruct (handleSubmit_cases env block w)
      as [(Hno & _) | [(f' & r & _ & _ & _ & ->) | (f' & e & _ & _ & ->)]].
    + now elim (Hno f).
    + now left.
    + now right.
Qed.

Lemma submit_feedback_witness :
  elements_by_tag "p"
    (NewsletterBlock sampleBlock
       (formState (exec (handleSubmit sampleBlock) (envStatus 500)
                        sampleWorld)))
  = [Elem "p" [("style", PStyle [("color", "red")])]
          [Text "Failed to submit form"]].
Proof.
  destruct (@submit_feedback (envStatus 500) sampleBlock sampleForm
              sampleWorld eq_refl eq_refl) as (_ & Herr & _).
  exact (proj1 (Herr eq_refl)).
Defined.

(** ** The inputs of the form *)

Lemma renderField_inputs fld :
  flat_map (elements_by_tag "input") (renderField fld)
  = match name fld with
    | Some nm =>
        [Elem "input"
           [("type", PStr (inputType fld)); ("name", PStr nm);
            ("required", PBool (bool_or_false (required fld)));
            ("placeholder", PStr (str_or (label fld) ""));
            ("style", PStyle inputStyle)]
           []]
    | None => []
    end.
Proof.
  unfold renderField, inputType.
  destruct (name fld); [destruct (label fld)|]; reflexivity.
Qed.

Lemma field_inputs_map (A : Type) (g : node -> A) (h : FormField -> A) l :
  (forall fld nm, name fld = Some nm ->
     map g (flat_map (elements_by_tag "input") (renderField fld)) = [h fld]) ->
  map g (flat_map (elements_by_tag "input") (flat_map renderField l))
  = map h (filter has_name l).
Proof.
  intros Hg. induction l as [|fld r IH]; [reflexivity|]. simpl.
  rewrite flat_map_app, map_app, IH. unfold has_name at 2.
  destruct (name fld) as [nm|] eqn:Hn.
  - now rewrite (Hg fld nm Hn).
  - now rewrite renderField_inputs, Hn.
Qed.

(** X14. The inputs of a block that passed the gate follow its named
    fields one to one: the input of a field is of type email when the field
    is an email field and a plain text input for every other kind of field
    (textarea, number, checkbox, select, country, state), and it is
    required only when the field says so. *)
Theorem inputs_follow_fields block f st l :
  form block = RefObj f ->
  title f = "newsletter-form-1" ->
  fields f = Some l ->
  let inputs := elements_by_tag "input" (NewsletterBlock block st) in
  map (fun i => prop_lookup "type" (props_of i)) inputs
  = map (fun fld => Some (PStr (if String.eqb (field_blockType fld) "email"
                                then "email" else "text")))
        (filter has_name l)
  /\ map (fun i => prop_lookup "required" (props_of i)) inputs
     = map (fun fld => Some (PBool (match required fld with
                                    | Some b => b
                                    | None => false
                                    end)))
           (filter has_name l)
  /\ map (fun i => prop_lookup "name" (props_of i)) inputs
     = map (fun fld => option_map PStr (name fld)) (filter has_name l).
Proof.
  intros Hform Htitle Hl inputs. unfold inputs.
  rewrite (@block_inputs block f st Hform Htitle), Hl. simpl.
  split; [|split]; apply field_inputs_map; intros fld nm Hn;
    rewrite renderField_inputs, Hn; try reflexivity.
Qed.

Lemma inputs_follow_fields_witness :
  map (fun i => prop_lookup "type" (props_of i))
      (elements_by_tag "input" (NewsletterBlock surveyBlock initialFormState))
  = [Some (PStr "email"); Some (PStr "text")].
Proof.
  exact (proj1 (@inputs_follow_fields surveyBlock surveyForm initialFormState
                  surveyFields eq_refl eq_refl eq_refl)).
Defined.

Lemma field_inputs_forall (P : node -> Prop) fs :
  (forall fld, Forall P (flat_map (elements_by_tag "input") (renderField fld))) ->
  Forall P (flat_map (elements_by_tag "input") (renderFields fs)).
Proof.
  intros HP. destruct fs as [l|]; [|constructor]. simpl.
  induction l as [|fld r IH]; [constructor|]. simpl.
  rewrite flat_map_app. apply Forall_app. split; [apply HP | exact IH].
Qed.

Lemma ungated_no_inputs block st :
  gate block = false -> elements_by_tag "input" (NewsletterBlock block st) = [].
Proof. intros H. now rewrite (NewsletterBlock_ungated _ st H). Qed.

(** X15. No input the block renders carries an [id], a [value], a
    [defaultValue] or a [disabled] attribute: the inputs are left to the
    browser, they are never disabled while a request is under way, and the
    [htmlFor] of a label names an id that no input has. *)
Theorem inputs_are_uncontrolled block st :
  Forall (fun i => prop_lookup "id" (props_of i) = None
                   /\ prop_lookup "value" (props_of i) = None
                   /\ prop_lookup "defaultValue" (props_of i) = None
                   /\ prop_lookup "disabled" (props_of i) = None)
         (elements_by_tag "input" (NewsletterBlock block st)).
Proof.
  destruct (gate block) eqn:Hg.
  - destruct (gated_inv _ Hg) as (f & Hform & Htitle).
    rewrite (@block_inputs block f st Hform Htitle).
    apply field_inputs_forall. intros fld. rewrite renderField_inputs.
    destruct (name fld); constructor; [|constructor].
    simpl. repeat split; reflexivity.
  - rewrite (ungated_no_inputs _ st Hg). constructor.
Qed.

(** X16. The inputs do not depend on the submission state: every state
    renders the same inputs, so the controls of the native form stay the
    same through Loading, Error and Success. *)
Theorem inputs_do_not_depend_on_state block st st' :
  elements_by_tag "input" (NewsletterBlock block st)
  = elements_by_tag "input" (NewsletterBlock block st')
  /\ mount (NewsletterBlock block st) = mount (NewsletterBlock block st').
Proof.
  assert (H : elements_by_tag "input" (NewsletterBlock block st)
              = elements_by_tag "input" (NewsletterBlock block st')).
  { destruct (gate block) eqn:Hg.
    - destruct (gated_inv _ Hg) as (f & Hform & Htitle).
      now rewrite (@block_inputs block f st Hform Htitle),
                  (@block_inputs block f st' Hform Htitle).
    - now rewrite !ungated_no_inputs. }
  split; [exact H|]. unfold mount. now rewrite H.
Qed.

(** ** Gate and guard *)

(** X17. The guard of the handler never stops a form that was rendered:
    a block that passed the render gate has a resolved form, and each
    submit on it sends one request. *)
Theorem rendered_form_always_submits block :
  gate block = true ->
  unresolved block = false
  /\ forall env w, exists f,
       form block = RefObj f
       /\ requests (exec (handleSubmit block) env w)
          = requests w ++ [(endpoint, requestInit f (collected w))].
Proof.
  intros Hg. destruct (gated_inv _ Hg) as (f & Hform & _). split.
  - destruct (unresolved block) eqn:Hu; [|reflexivity].
    pose proof (proj1 (unresolved_spec block) Hu f) as Hn. contradiction.
  - intros env w. exists f. split; [assumption|].
    apply (@requests_after_submit env block f w Hform).
Qed.

Lemma rendered_form_always_submits_witness :
  gate sampleBlock = true /\ unresolved sampleBlock = false.
Proof.
  split; [reflexivity|].
  exact (proj1 (@rendered_form_always_submits sampleBlock eq_refl)).
Defined.

(** ** The page on first render *)

Lemma ContentBlock_no_control t b :
  String.eqb "div" t = false -> String.eqb "h2" t = false ->
  elements_by_tag t (ContentBlock b) = [].
Proof.
  intros Hd Hh. unfold ContentBlock. cbn [flat_map elements_by_tag app].
  now rewrite Hd, Hh, text_child_no_element.
Qed.

Lemma newsletter_forms b st :
  length (elements_by_tag "form" (NewsletterBlock b st))
  = if gate b then 1%nat else 0%nat.
Proof.
  destruct (gate b) eqn:Hg.
  - destruct (gated_inv _ Hg) as (f & Hform & Htitle).
    rewrite (@NewsletterBlock_gated b f st Hform Htitle).
    unfold formUI. simpl. prune_render.
    rewrite (@fields_no_tag "form" (fields f) eq_refl eq_refl eq_refl).
    rewrite (@errorArea_no_tag "form" st eq_refl).
    rewrite (@resultArea_no_tag "form" f st eq_refl eq_refl).
    reflexivity.
  - now rewrite (NewsletterBlock_ungated _ st Hg).
Qed.

Lemma newsletter_buttons b :
  length (elements_by_tag "button" (NewsletterBlock b initialFormState))
  = if gate b then 1%nat else 0%nat.
Proof.
  destruct (gate b) eqn:Hg.
  - destruct (gated_inv _ Hg) as (f & Hform & Htitle).
    now rewrite (@button_rendered b f initialFormState Hform Htitle eq_refl).
  - now rewrite (NewsletterBlock_ungated _ initialFormState Hg).
Qed.

Lemma block_section_count HeroBlock t b :
  String.eqb "div" t = false -> String.eqb "h2" t = false ->
  (forall b, elements_by_tag t (HeroBlock b) = []) ->
  (forall b, length (elements_by_tag t (NewsletterBlock b initialFormState))
             = if gate b then 1%nat else 0%nat) ->
  length (flat_map (elements_by_tag t)
                   (map (renderComponent HeroBlock) (kept [renderBlock b])))
  = if shownForm b then 1%nat else 0%nat.
Proof.
  intros Hd Hh Hhero Hnews. unfold renderBlock, shownForm.
  destruct (String.eqb_spec (blockType b) "hero") as [E|_].
  - rewrite E.
    replace (String.eqb "hero" "newsletter-form") with false by reflexivity.
    cbn [kept map flat_map renderComponent app andb].
    now rewrite Hhero.
  - destruct (String.eqb_spec (blockType b) "content") as [E|_].
    + rewrite E.
      replace (String.eqb "content" "newsletter-form") with false
        by reflexivity.
      cbn [kept map flat_map renderComponent app andb].
      now rewrite (@ContentBlock_no_control t b Hd Hh).
    + destruct (String.eqb (blockType b) "newsletter-form");
        cbn [kept map flat_map renderComponent app andb].
      * rewrite app_nil_r. apply Hnews.
      * reflexivity.
Qed.

Lemma kept_cons o l : kept (o :: l) = kept [o] ++ kept l.
Proof. destruct o; reflexivity. Qed.

Lemma sections_count HeroBlock t bs :
  (forall b, length (flat_map (elements_by_tag t)
                       (map (renderComponent HeroBlock) (kept [renderBlock b])))
             = if shownForm b then 1%nat else 0%nat) ->
  length (flat_map (elements_by_tag t) (renderSections HeroBlock (Some bs)))
  = length (filter shownForm bs).
Proof.
  intros Hb. unfold renderSections, renderLayout.
  induction bs as [|b r IH]; [reflexivity|].
  change (map renderBlock (b :: r)) with (renderBlock b :: map renderBlock r).
  rewrite kept_cons, map_app, flat_map_app, length_app, IH, Hb.
  cbn [filter]. destruct (shownForm b); reflexivity.
Qed.

(** X18. A page on first render, given a hero component that renders no
    form and no button: the page has as many forms, and as many submit
    buttons, as its layout has newsletter blocks that pass the gate.
    Content blocks, blocks of other types and newsletter blocks with
    another form contribute none. *)
Theorem page_forms_are_gated_newsletters (HeroBlock : Block -> node) bs :
  (forall b, elements_by_tag "form" (HeroBlock b) = []) ->
  (forall b, elements_by_tag "button" (HeroBlock b) = []) ->
  length (flat_map (elements_by_tag "form")
                   (renderSections HeroBlock (Some bs)))
  = length (filter shownForm bs)
  /\ length (flat_map (elements_by_tag "button")
                      (renderSections HeroBlock (Some bs)))
     = length (filter shownForm bs)
  /\ length (renderSections HeroBlock (Some bs))
     = length (filter recognized bs).
Proof.
  intros Hform Hbutton. split; [|split].
  - apply sections_count. intros b.
    apply block_section_count; try reflexivity; [assumption|].
    intros b'. apply newsletter_forms.
  - apply sections_count. intros b.
    apply block_section_count; try reflexivity; [assumption|].
    intros b'. apply newsletter_buttons.
  - unfold renderSections. rewrite length_map.
    rewrite <- (length_map rendered_block). simpl.
    now rewrite kept_in_order, length_map.
Qed.

Lemma page_forms_are_gated_newsletters_witness :
  length (flat_map (elements_by_tag "form")
                   (renderSections sampleHero
                      (Some (sampleLayout ++ [unresolvedBlock]))))
  = 1%nat
  /\ length (renderSections sampleHero
               (Some (sampleLayout ++ [unresolvedBlock]))) = 4%nat.
Proof.
  assert (Hform : forall b, elements_by_tag "form" (sampleHero b) = []).
  { intros b. unfold sampleHero. destruct (heading b); reflexivity. }
  assert (Hbutton : forall b, elements_by_tag "button" (sampleHero b) = []).
  { intros b. unfold sampleHero. destruct (heading b); reflexivity. }
  destruct (@page_forms_are_gated_newsletters sampleHero
              (sampleLayout ++ [unresolvedBlock]) Hform Hbutton)
    as (Hf & _ & Hn).
  split; [exact Hf | exact Hn].
Defined.

Lemma components_kept bs :
  flat_map components (kept (map renderBlock bs)) = kept (map renderBlock bs).
Proof.
  induction bs as [|b r IH]; [reflexivity|].
  change (map renderBlock (b :: r)) with (renderBlock b :: map renderBlock r).
  rewrite kept_cons, flat_map_app, IH. f_equal.
  unfold renderBlock.
  destruct (String.eqb (blockType b) "hero"); [reflexivity|].
  destruct (String.eqb (blockType b) "content"); [reflexivity|].
  destruct (String.eqb (blockType b) "newsletter-form"); reflexivity.
Qed.

(** X19. The components of the home page are made from the first document
    of the answer alone: one per recognized block of its layout, in layout
    order.  There is none when the answer is empty (the page is then the
    not-found placeholder), when the document has no layout, and when no
    block of the layout is recognized. *)
Theorem home_page_components docs :
  map rendered_block (components (HomePageOf docs))
  = match docs with
    | [] => []
    | p :: _ =>
        match layout p with
        | Some bs => map Some (filter recognized bs)
        | None => []
        end
    end.
Proof.
  destruct docs as [|p rest]; [reflexivity|].
  unfold HomePageOf, HomePage. cbn [hd_error components flat_map].
  rewrite !app_nil_r. destruct (layout p) as [bs|]; [|reflexivity].
  unfold renderLayout. rewrite components_kept. apply kept_in_order.
Qed.
